(** * Veeam MCP chat client: the front end's chat, settings and transcript logic

  A shallow embedding of the TypeScript front end (ChatInterface.tsx,
  services/api.ts, App.tsx, Settings.tsx, MCPConfigDialog.tsx) together
  with the properties the specification states about it.

  JavaScript strings are sequences of UTF-16 code units; they are modelled
  as [list N], one number per code unit, so that [length], [substring],
  [includes], [trim] and [split] count and compare exactly what the
  engine counts and compares. *)

From Stdlib Require Import String Ascii NArith DecimalString.
From stdpp Require Import gmap list.

Local Open Scope N_scope.
Local Open Scope list_scope.

(** ** JavaScript string primitives *)

Module JsString.

Abbreviation jsstring := (list N).

(** A source literal made of ASCII characters, as code units. *)
Definition lit (s : string) : jsstring :=
  N_of_ascii <$> list_ascii_of_string s.
Arguments lit s%_string.

(** [`${n}`] for a non-negative integer: its decimal digits. *)
Definition decimal (n : N) : jsstring :=
  lit (NilZero.string_of_uint (N.to_uint n)).

(** Truthiness of a string: only the empty string is falsy. *)
Definition truthy (s : jsstring) : bool :=
  match s with [] => false | _ :: _ => true end.

(** [a || b] where [a] is a string or undefined and [b] a string. *)
Definition or_else (a : option jsstring) (b : jsstring) : jsstring :=
  match a with
  | Some s => if truthy s then s else b
  | None => b
  end.

(** [a || b] where both sides may be undefined. *)
Definition or_opt (a b : option jsstring) : option jsstring :=
  match a with
  | Some s => if truthy s then Some s else b
  | None => b
  end.

(** A string-valued operand that is undefined or empty: what [||]
    skips. *)
Definition skipped (o : option jsstring) : Prop := o = None ∨ o = Some [].

Fixpoint startsWith (pat s : jsstring) : bool :=
  match pat, s with
  | [], _ => true
  | _ :: _, [] => false
  | p :: pat', c :: s' => (p =? c) && startsWith pat' s'
  end.

(** [s.includes(pat)]: [pat] occurs at some position of [s]. *)
Fixpoint includes (s pat : jsstring) : bool :=
  startsWith pat s ||
  match s with
  | [] => false
  | _ :: s' => includes s' pat
  end.

(** The meaning of [includes], independent of how it searches. *)
Definition Contains (s pat : jsstring) : Prop :=
  ∃ before after, s = before ++ pat ++ after.

(** ECMAScript WhiteSpace and LineTerminator code units, the ones
    [String.prototype.trim] strips. *)
Definition isWhiteSpace (c : N) : bool :=
  (c =? 9) || (c =? 10) || (c =? 11) || (c =? 12) || (c =? 13) ||
  (c =? 32) || (c =? 160) || (c =? 5760) ||
  ((8192 <=? c) && (c <=? 8202)) ||
  (c =? 8232) || (c =? 8233) || (c =? 8239) || (c =? 8287) ||
  (c =? 12288) || (c =? 65279).

Fixpoint trimStart (s : jsstring) : jsstring :=
  match s with
  | [] => []
  | c :: s' => if isWhiteSpace c then trimStart s' else s
  end.

Definition trimEnd (s : jsstring) : jsstring :=
  reverse (trimStart (reverse s)).

Definition trim (s : jsstring) : jsstring := trimEnd (trimStart s).

(** [s.split(sep)] for a one-unit separator: the pieces between
    separators, empty pieces included; the empty string gives [[""]]. *)
Fixpoint split (sep : N) (s : jsstring) : list jsstring :=
  match s with
  | [] => [[]]
  | c :: s' =>
      if c =? sep then [] :: split sep s'
      else match split sep s' with
           | [] => [[c]]
           | piece :: pieces => (c :: piece) :: pieces
           end
  end.

(** [pieces.join(sep)] *)
Fixpoint join (sep : jsstring) (pieces : list jsstring) : jsstring :=
  match pieces with
  | [] => []
  | [p] => p
  | p :: ps => p ++ sep ++ join sep ps
  end.

(** [s.substring(0, n)]: the first [n] code units (all of [s] when it
    is shorter). *)
Definition substring0 (n : nat) (s : jsstring) : jsstring := take n s.

(** Lower-casing of the ASCII letters. The engine's [toLowerCase] maps
    every cased Unicode letter; the components below take the engine's
    function as an argument, and this one instantiates it on ASCII text. *)
Definition asciiToLowerCase (s : jsstring) : jsstring :=
  (λ c, if (65 <=? c) && (c <=? 90) then c + 32 else c) <$> s.

End JsString.

Import JsString.

(** ** Values the front end receives untyped

    [response.json()] and [JSON.parse] hand the components plain
    JavaScript values; TypeScript's interfaces are not checked at run
    time. The values the components look into are flat: strings,
    booleans, integers and arrays of strings; an object maps property
    names to such values. *)

Module Js.

Inductive JsValue :=
| JUndefined
| JNull
| JBool (b : bool)
| JNum (z : Z)
| JStr (s : jsstring)
| JStrArr (items : list jsstring).

Abbreviation JsObject := (gmap (list N) JsValue).

(** [o.k] for a parsed JSON object and one of the names the code reads
    ([content], [finished], [provider], [configured], [healthy],
    [available_models], [error]), none of which an object inherits: the
    own property, or undefined. *)
Definition prop (o : JsObject) (k : jsstring) : JsValue :=
  default JUndefined (o !! k).

(** ToBoolean. An array is an object, hence truthy even when empty. *)
Definition truthyV (v : JsValue) : bool :=
  match v with
  | JUndefined | JNull => false
  | JBool b => b
  | JNum z => negb (z =? 0)%Z
  | JStr s => truthy s
  | JStrArr _ => true
  end.

(** ToString of a value, as a template literal or a property key takes
    it. *)
Definition toStringV (v : JsValue) : jsstring :=
  match v with
  | JUndefined => lit "undefined"
  | JNull => lit "null"
  | JBool true => lit "true"
  | JBool false => lit "false"
  | JNum z => (if (z <? 0)%Z then lit "-" else []) ++ decimal (Z.abs_N z)
  | JStr s => s
  | JStrArr items => join (lit ",") items
  end.

(** How a call ends: with a value, or with a thrown value. *)
Inductive Completion (E A : Type) :=
| Return (a : A)
| Throw (e : E).
Arguments Return {E A} a.
Arguments Throw {E A} e.

End Js.

Import Js.

(** ** types/index.ts *)

Inductive Role := user | assistant | system.

#[global] Instance Role_eq_dec : EqDecision Role.
Proof. solve_decision. Defined.

Record ToolCall := {
  tc_id : jsstring;
  tc_name : jsstring;
  tc_arguments : JsObject;
}.

(** [timestamp: Date] is kept as milliseconds since the epoch. *)
Record Message := {
  msg_id : jsstring;
  msg_role : Role;
  msg_content : jsstring;
  msg_timestamp : N;
  msg_toolCalls : option (list ToolCall);
}.

Record Chat := {
  chat_id : jsstring;
  chat_title : jsstring;
  chat_createdAt : N;
  chat_updatedAt : N;
  chat_messages : list Message;
}.

Inductive ArtifactType := report | dashboard | table | script | diagram.

Record Artifact := {
  art_id : jsstring;
  art_title : jsstring;
  art_type : ArtifactType;
  art_content : jsstring;
  art_preview : option jsstring;
  art_code : option jsstring;
  art_metadata : option JsObject;
}.

Record LLMProvider := {
  llm_id : jsstring;
  llm_name : jsstring;
  llm_models : list jsstring;
}.

(** ** services/api.ts *)

Module Api.

(** The objects [handleSend] puts in [messages]: role and content only. *)
Record WireMessage := {
  wire_role : Role;
  wire_content : jsstring;
}.

Record ChatRequest := {
  req_provider : jsstring;
  req_messages : list WireMessage;
  req_model : option jsstring;
  req_stream : option bool;
}.

Record Usage := {
  prompt_tokens : N;
  completion_tokens : N;
  total_tokens : N;
}.

Record ChatResponse := {
  resp_content : jsstring;
  resp_model : jsstring;
  resp_finish_reason : option jsstring;
  resp_usage : option Usage;
  resp_tool_calls : option (list JsObject);
}.

(** The body of an error response, as far as the client reads it:
    [data?.detail] and [data?.message]. *)
Record ErrorBody := {
  err_detail : option jsstring;
  err_message : option jsstring;
}.

(** What axios rejects with. [ax_response] is [error.response] (absent
    when no response arrived), holding [error.response.data] (absent when
    the response had no body); [ax_request] tells whether [error.request]
    is set; [ax_string] is what [String(error)] gives. *)
Record AxiosError := {
  ax_response : option (option ErrorBody);
  ax_request : bool;
  ax_message : option jsstring;
  ax_string : jsstring;
}.

(** A value thrown to the caller of [chatAPI], as far as the caller reads
    it: [error?.response?.data?.detail], [error?.message] and
    [String(error)]. *)
Record Thrown := {
  th_detail : option jsstring;
  th_message : option jsstring;
  th_string : jsstring;
}.

(** The requests a call puts on the network, in order. *)
Inductive NetCall :=
| HttpPost (url : jsstring) (body : ChatRequest)
| HttpGet (url : jsstring)
| EventSourceOpen (url : jsstring).

(** [error.response.data?.detail || error.response.data?.message ||
    'An error occurred'] *)
Definition serverErrorText (data : option ErrorBody) : jsstring :=
  or_else (or_opt (data ≫= err_detail) (data ≫= err_message))
          (lit "An error occurred").

(** [chatAPI.sendMessage]. [post] is [api.post] on '/api/v1/chat': how the
    server answers a request body. *)
Definition sendMessage
    (post : ChatRequest → Completion AxiosError ChatResponse)
    (request : ChatRequest)
  : Completion Thrown ChatResponse * list NetCall :=
  let net := [HttpPost (lit "/api/v1/chat") request] in
  match post request with
  | Return data => (Return data, net)
  | Throw error =>
      match ax_response error with
      | Some data =>
          (Throw {| th_detail := Some (serverErrorText data);
                    th_message := Some (serverErrorText data);
                    th_string := lit "[object Object]" |}, net)
      | None =>
          if ax_request error then
            (Throw {| th_detail := None;
                      th_message := Some (lit "No response from server. Please check your connection.");
                      th_string := lit "[object Object]" |}, net)
          else
            (Throw {| th_detail := None;
                      th_message := ax_message error;
                      th_string := ax_string error |}, net)
      end
  end.

(** [chatAPI.getProviders]: no handler, a rejection propagates. *)
Definition getProviders
    (get : jsstring → Completion AxiosError (list jsstring))
  : Completion AxiosError (list jsstring) * list NetCall :=
  (get (lit "/api/v1/providers"), [HttpGet (lit "/api/v1/providers")]).

(** The body of the provider-health endpoint, [{healthy: bool}]. *)
Record HealthResponse := {
  data_healthy : bool;
}.

(** [`/api/v1/providers/${provider}/health`] *)
Definition healthUrl (provider : jsstring) : jsstring :=
  lit "/api/v1/providers/" ++ provider ++ lit "/health".

(** [chatAPI.checkHealth]. The [catch] clause binds nothing and returns
    false. *)
Definition checkHealth
    (get : jsstring → Completion AxiosError HealthResponse)
    (provider : jsstring)
  : Completion Thrown bool * list NetCall :=
  let url := healthUrl provider in
  match get url with
  | Return response => (Return (data_healthy response), [HttpGet url])
  | Throw _ => (Return false, [HttpGet url])
  end.

End Api.

Import Api.

(** ** services/api.ts: streaming *)

Module Stream.

(** What [JSON.parse(event.data)] gives, as far as the handler looks
    into it: null, an object, or a value with neither a [content] nor a
    [finished] property (number, string, boolean, array). *)
Inductive JsonData :=
| DNull
| DObject (o : JsObject)
| DOther.

(** An event of the event source: a message whose data parses to
    [Some d] or makes [JSON.parse] throw ([None]), or a connection
    error. *)
Inductive SseEvent :=
| MessageEvent (data : option JsonData)
| ErrorEvent.

(** What [onError] is handed: the error [JSON.parse] threw, the error of
    reading a property of null, whatever a callback threw inside the
    [try], or [new Error(message)]. *)
Inductive ErrorValue :=
| SyntaxError
| TypeError
| CallbackError
| Error (message : jsstring).

(** An invocation of one of the caller's callbacks. *)
Inductive Callback :=
| OnChunk (chunk : JsValue)
| OnComplete
| OnError (e : ErrorValue).

(** The event source and the callbacks invoked so far, oldest first. *)
Record StreamState := {
  es_closed : bool;
  es_calls : list Callback;
}.

Definition call (c : Callback) (s : StreamState) : StreamState :=
  {| es_closed := es_closed s; es_calls := es_calls s ++ [c] |}.

(** [eventSource.close()] *)
Definition close (s : StreamState) : StreamState :=
  {| es_closed := true; es_calls := es_calls s |}.

(** [onError(e); eventSource.close()], the body of the [catch] block and
    of [onerror]: [onError] is called first, and when it throws the
    exception leaves the handler before [close] is reached. *)
Definition caught (throws : Callback → bool)
    (e : ErrorValue) (s : StreamState) : StreamState :=
  let s1 := call (OnError e) s in
  if throws (OnError e) then s1 else close s1.

(** [eventSource.onmessage]. [throws] tells which invocations of the
    caller's callbacks throw. Reading a property of null throws inside
    the [try] as well. *)
Definition onmessage (throws : Callback → bool)
    (data : option JsonData) (s : StreamState) : StreamState :=
  match data with
  | None => caught throws SyntaxError s
  | Some DNull => caught throws TypeError s
  | Some DOther => s
  | Some (DObject o) =>
      let content := prop o (lit "content") in
      let s1 := if truthyV content then call (OnChunk content) s else s in
      if truthyV content && throws (OnChunk content)
      then caught throws CallbackError s1
      else if truthyV (prop o (lit "finished"))
           then let s2 := call OnComplete s1 in
                if throws OnComplete then caught throws CallbackError s2
                else close s2
           else s1
  end.

(** [eventSource.onerror] *)
Definition onerror (throws : Callback → bool) (s : StreamState) : StreamState :=
  caught throws (Error (lit "Stream connection failed")) s.

(** The event source hands an event to its handler only while it is not
    closed. *)
Definition dispatch (throws : Callback → bool)
    (s : StreamState) (e : SseEvent) : StreamState :=
  if es_closed s then s
  else match e with
       | MessageEvent data => onmessage throws data s
       | ErrorEvent => onerror throws s
       end.

Definition deliver (throws : Callback → bool)
    (s : StreamState) (events : list SseEvent) : StreamState :=
  foldl (dispatch throws) s events.

(** [chatAPI.streamMessage]: opens the event source on the chat URL and
    installs the two handlers; [events] is what the source then
    delivers. *)
Definition streamMessage
    (API_BASE_URL : jsstring) (throws : Callback → bool)
    (request : ChatRequest) (events : list SseEvent)
  : StreamState * list NetCall :=
  let url := API_BASE_URL ++ lit "/api/v1/chat?provider=" ++
             req_provider request ++ lit "&stream=true" in
  (deliver throws {| es_closed := false; es_calls := [] |} events,
   [EventSourceOpen url]).

(** The content deltas handed to [onChunk], oldest first. *)
Definition chunks (s : StreamState) : list JsValue :=
  omap (λ c, match c with OnChunk v => Some v | _ => None end) (es_calls s).

(** The events after which the handler ends the stream: it runs to
    [eventSource.close()] unless a callback throws on the way. *)
Definition terminating (e : SseEvent) : bool :=
  match e with
  | MessageEvent None => true
  | MessageEvent (Some DNull) => true
  | MessageEvent (Some (DObject o)) => truthyV (prop o (lit "finished"))
  | MessageEvent (Some DOther) => false
  | ErrorEvent => true
  end.

(** The delta a message event carries for [onChunk]: its truthy
    [content], if it is an object and has one. *)
Definition delivered (e : SseEvent) : option JsValue :=
  match e with
  | MessageEvent (Some (DObject o)) =>
      if truthyV (prop o (lit "content"))
      then Some (prop o (lit "content")) else None
  | _ => None
  end.

(** The events up to and including the first terminating one. *)
Fixpoint untilTerminated (events : list SseEvent) : list SseEvent :=
  match events with
  | [] => []
  | e :: rest => if terminating e then [e] else e :: untilTerminated rest
  end.

Definition isComplete (c : Callback) : bool :=
  match c with OnComplete => true | _ => false end.

Definition isError (c : Callback) : bool :=
  match c with OnError _ => true | _ => false end.

(** How many of the callbacks made satisfy [p]. *)
Definition made (p : Callback → bool) (s : StreamState) : nat :=
  length (filter (λ c, p c = true) (es_calls s)).

(** The callbacks made so far fit a stream that is still open, or one
    that was ended once. *)
Definition wellEnded (s : StreamState) : Prop :=
  (made isComplete s ≤ 1)%nat ∧ (made isError s ≤ 1)%nat ∧
  (es_closed s = false → made isComplete s = 0%nat ∧ made isError s = 0%nat) ∧
  (es_closed s = true → (1 ≤ made isComplete s + made isError s)%nat).

End Stream.

(** ** components/ChatInterface.tsx *)

Module ChatInterface.

(** [props_onArtifactGenerated] tells whether the optional callback was
    passed. *)
Record Props := {
  props_messages : list Message;
  props_provider : jsstring;
  props_model : jsstring;
  props_onArtifactGenerated : bool;
}.

Record State := {
  st_input : jsstring;
  st_isStreaming : bool;
  st_streamingContent : jsstring;
  st_error : option jsstring;
}.

(** What [handleSend] does to the outside, in order. *)
Inductive Effect :=
| OnNewMessage (m : Message)
| Network (c : NetCall)
| OnArtifactGenerated (a : Artifact)
| ConsoleError (e : Thrown).

Definition toWire (m : Message) : WireMessage :=
  {| wire_role := msg_role m; wire_content := msg_content m |}.

(** Lines 81-93: the artifact announced for a response, if any. [now] is
    the reading of [Date.now()]. *)
Definition artifactOf (now : N) (content : jsstring) : option Artifact :=
  if includes content (lit "Dashboard") || includes content (lit "Report")
  then
    let artifactType :=
      if includes content (lit "Dashboard") then dashboard else report in
    Some {| art_id := lit "artifact-" ++ decimal now;
            art_title := if includes content (lit "Dashboard")
                         then lit "Veeam Backup Dashboard"
                         else lit "Executive Backup Report";
            art_type := artifactType;
            art_content := content;
            art_preview := Some content;
            art_code := None;
            art_metadata := None |}
  else None.

(** [error?.response?.data?.detail || error?.message || String(error)] *)
Definition errorMessage (e : Thrown) : jsstring :=
  or_else (or_opt (th_detail e) (th_message e)) (th_string e).

(** Lines 100-109: the text put in the error banner. *)
Definition errorBanner (toLowerCase : jsstring → jsstring) (e : Thrown) : jsstring :=
  let errorMessage := errorMessage e in
  if includes (toLowerCase errorMessage) (lit "api key") ||
     includes (toLowerCase errorMessage) (lit "authentication") ||
     includes (toLowerCase errorMessage) (lit "unauthorized") ||
     includes (toLowerCase errorMessage) (lit "key is required")
  then lit "API key not configured. Please configure your API key in Settings."
  else lit "Error: " ++ errorMessage.

(** The request [handleSend] builds from the transcript and the new
    message. *)
Definition requestOf (props : Props) (userMessage : Message) : ChatRequest :=
  let allMessages := props_messages props ++ [userMessage] in
  {| req_provider := props_provider props;
     req_messages := toWire <$> allMessages;
     req_model := Some (props_model props);
     req_stream := Some false |}.

(** The message [handleSend] makes of the input. *)
Definition userMessageOf (clock : nat → N) (st : State) : Message :=
  {| msg_id := lit "msg-" ++ decimal (clock 0%nat);
     msg_role := user;
     msg_content := trim (st_input st);
     msg_timestamp := clock 1%nat;
     msg_toolCalls := None |}.

(** The message [handleSend] makes of the response. *)
Definition assistantMessageOf (clock : nat → N) (response : ChatResponse)
  : Message :=
  {| msg_id := lit "msg-" ++ decimal (clock 2%nat);
     msg_role := assistant;
     msg_content := resp_content response;
     msg_timestamp := clock 3%nat;
     msg_toolCalls := None |}.

(** [handleSend], run to completion. [clock] gives the successive
    readings of the clock ([Date.now()] and [new Date()]), [post] is the
    server behind [chatAPI.sendMessage]. Returns the component state once
    the [finally] block has run, and the effects in order. *)
Definition handleSend
    (toLowerCase : jsstring → jsstring)
    (clock : nat → N)
    (post : ChatRequest → Completion AxiosError ChatResponse)
    (props : Props) (st : State)
  : State * list Effect :=
  if negb (truthy (trim (st_input st))) || st_isStreaming st then (st, [])
  else
    let userMessage := userMessageOf clock st in
    match sendMessage post (requestOf props userMessage) with
    | (Return response, net) =>
        let assistantMessage := assistantMessageOf clock response in
        let announced :=
          if props_onArtifactGenerated props
          then match artifactOf (clock 4%nat) (resp_content response) with
               | Some a => [OnArtifactGenerated a]
               | None => []
               end
          else [] in
        ({| st_input := []; st_isStreaming := false;
            st_streamingContent := []; st_error := None |},
         [OnNewMessage userMessage] ++ (Network <$> net) ++
         [OnNewMessage assistantMessage] ++ announced)
    | (Throw error, net) =>
        ({| st_input := []; st_isStreaming := false;
            st_streamingContent := [];
            st_error := Some (errorBanner toLowerCase error) |},
         [OnNewMessage userMessage] ++ (Network <$> net) ++
         [ConsoleError error])
    end.

(** The input passes the guard of [handleSend]: it is not blank and no
    exchange is under way. *)
Definition accepted (st : State) : Prop :=
  truthy (trim (st_input st)) = true ∧ st_isStreaming st = false.

(** A message names a credentials problem, letter case aside. *)
Definition authFlavoured (toLowerCase : jsstring → jsstring)
    (message : jsstring) : Prop :=
  Contains (toLowerCase message) (lit "api key") ∨
  Contains (toLowerCase message) (lit "authentication") ∨
  Contains (toLowerCase message) (lit "unauthorized") ∨
  Contains (toLowerCase message) (lit "key is required").

(** Line 155: the banner comes with the 'Open Settings' link, provided
    [onOpenSettings] was passed. *)
Definition showsOpenSettings (banner : jsstring) (onOpenSettings : bool) : bool :=
  includes banner (lit "API key") && onOpenSettings.

End ChatInterface.

(** ** components/ChatMessage.tsx *)

Module ChatMessage.

Definition hasViewButton (content : jsstring) : bool :=
  includes content (lit "View Dashboard") || includes content (lit "View Report").

(** Line 81: the View button is rendered. *)
Definition showsViewButton (message : Message) : bool :=
  bool_decide (msg_role message = assistant) &&
  hasViewButton (msg_content message).

(** Line 92: the label of the View button. *)
Definition viewButtonLabel (content : jsstring) : jsstring :=
  if includes content (lit "Dashboard")
  then lit "View Dashboard" else lit "View Report".

End ChatMessage.

(** ** App.tsx *)

Module App.

Inductive Nav := nav_chats | nav_tools | nav_starred.

Record ModelOption := {
  mo_value : jsstring;
  mo_label : jsstring;
  mo_provider : jsstring;
  mo_healthy : bool;
}.

(** The [useState] cells of [App]. *)
Record State := {
  chats : list Chat;
  activeChatId : option jsstring;
  currentChat : option Chat;
  selectedProvider : jsstring;
  selectedModel : jsstring;
  availableProviders : list jsstring;
  artifact : option Artifact;
  darkMode : bool;
  showSettings : bool;
  availableModels : list ModelOption;
  activeNav : Nav;
}.

Definition setChats (v : list Chat) (s : State) : State :=
  {| chats := v; activeChatId := activeChatId s;
     currentChat := currentChat s; selectedProvider := selectedProvider s;
     selectedModel := selectedModel s;
     availableProviders := availableProviders s; artifact := artifact s;
     darkMode := darkMode s; showSettings := showSettings s;
     availableModels := availableModels s; activeNav := activeNav s |}.

Definition setActiveChatId (v : option jsstring) (s : State) : State :=
  {| chats := chats s; activeChatId := v;
     currentChat := currentChat s; selectedProvider := selectedProvider s;
     selectedModel := selectedModel s;
     availableProviders := availableProviders s; artifact := artifact s;
     darkMode := darkMode s; showSettings := showSettings s;
     availableModels := availableModels s; activeNav := activeNav s |}.

Definition setCurrentChat (v : option Chat) (s : State) : State :=
  {| chats := chats s; activeChatId := activeChatId s;
     currentChat := v; selectedProvider := selectedProvider s;
     selectedModel := selectedModel s;
     availableProviders := availableProviders s; artifact := artifact s;
     darkMode := darkMode s; showSettings := showSettings s;
     availableModels := availableModels s; activeNav := activeNav s |}.

Definition setArtifact (v : option Artifact) (s : State) : State :=
  {| chats := chats s; activeChatId := activeChatId s;
     currentChat := currentChat s; selectedProvider := selectedProvider s;
     selectedModel := selectedModel s;
     availableProviders := availableProviders s; artifact := v;
     darkMode := darkMode s; showSettings := showSettings s;
     availableModels := availableModels s; activeNav := activeNav s |}.

Definition setActiveNav (v : Nav) (s : State) : State :=
  {| chats := chats s; activeChatId := activeChatId s;
     currentChat := currentChat s; selectedProvider := selectedProvider s;
     selectedModel := selectedModel s;
     availableProviders := availableProviders s; artifact := artifact s;
     darkMode := darkMode s; showSettings := showSettings s;
     availableModels := availableModels s; activeNav := v |}.

(** [handleNewChat]; [clock] gives the successive readings of the
    clock. *)
Definition handleNewChat (clock : nat → N) (s : State) : State :=
  let newChat :=
    {| chat_id := lit "chat-" ++ decimal (clock 0%nat);
       chat_title := lit "New Chat";
       chat_createdAt := clock 1%nat;
       chat_updatedAt := clock 2%nat;
       chat_messages := [] |} in
  setArtifact None
    (setCurrentChat (Some newChat)
      (setActiveChatId (Some (chat_id newChat))
        (setChats (newChat :: chats s) s))).

Definition handleSelectChat (chatId : jsstring) (s : State) : State :=
  let chat := find (λ c, bool_decide (chat_id c = chatId)) (chats s) in
  setActiveNav nav_chats
    (setArtifact None
      (setCurrentChat chat
        (setActiveChatId (Some chatId) s))).

Definition handleDeleteChat (chatId : jsstring) (s : State) : State :=
  let s1 := setChats (filter (λ c, chat_id c ≠ chatId) (chats s)) s in
  if decide (activeChatId s = Some chatId)
  then setCurrentChat None (setActiveChatId None s1)
  else s1.

(** The title [handleNewMessage] gives the chat. *)
Definition titleAfter (title : jsstring) (message : Message) : jsstring :=
  if bool_decide (title = lit "New Chat") &&
     bool_decide (msg_role message = user)
  then substring0 50 (msg_content message) ++
       (if bool_decide (50 < length (msg_content message))%nat
        then lit "..." else [])
  else title.

(** [handleNewMessage]; [now] is the clock at the call. *)
Definition handleNewMessage (now : N) (message : Message) (s : State) : State :=
  match currentChat s with
  | None => s
  | Some current =>
      let updatedChat :=
        {| chat_id := chat_id current;
           chat_title := titleAfter (chat_title current) message;
           chat_createdAt := chat_createdAt current;
           chat_updatedAt := now;
           chat_messages := chat_messages current ++ [message] |} in
      setChats
        ((λ c, if bool_decide (chat_id c = chat_id updatedChat)
               then updatedChat else c) <$> chats s)
        (setCurrentChat (Some updatedChat) s)
  end.

Definition handleArtifactGenerated (newArtifact : Artifact) (s : State) : State :=
  setArtifact (Some newArtifact) s.

(** The props [App] renders [ChatInterface] with: the messages of the
    current chat ([currentChat?.messages || []]), the selected provider
    and model, and all three callbacks. *)
Definition chatInterfaceProps (s : State) : ChatInterface.Props :=
  {| ChatInterface.props_messages :=
       match currentChat s with
       | Some chat => chat_messages chat
       | None => []
       end;
     ChatInterface.props_provider := selectedProvider s;
     ChatInterface.props_model := selectedModel s;
     ChatInterface.props_onArtifactGenerated := true |}.

Definition setSelectedProvider (v : jsstring) (s : State) : State :=
  {| chats := chats s; activeChatId := activeChatId s;
     currentChat := currentChat s; selectedProvider := v;
     selectedModel := selectedModel s;
     availableProviders := availableProviders s; artifact := artifact s;
     darkMode := darkMode s; showSettings := showSettings s;
     availableModels := availableModels s; activeNav := activeNav s |}.

Definition setSelectedModel (v : jsstring) (s : State) : State :=
  {| chats := chats s; activeChatId := activeChatId s;
     currentChat := currentChat s; selectedProvider := selectedProvider s;
     selectedModel := v;
     availableProviders := availableProviders s; artifact := artifact s;
     darkMode := darkMode s; showSettings := showSettings s;
     availableModels := availableModels s; activeNav := activeNav s |}.

Definition setAvailableProviders (v : list jsstring) (s : State) : State :=
  {| chats := chats s; activeChatId := activeChatId s;
     currentChat := currentChat s; selectedProvider := selectedProvider s;
     selectedModel := selectedModel s;
     availableProviders := v; artifact := artifact s;
     darkMode := darkMode s; showSettings := showSettings s;
     availableModels := availableModels s; activeNav := activeNav s |}.

Definition setAvailableModels (v : list ModelOption) (s : State) : State :=
  {| chats := chats s; activeChatId := activeChatId s;
     currentChat := currentChat s; selectedProvider := selectedProvider s;
     selectedModel := selectedModel s;
     availableProviders := availableProviders s; artifact := artifact s;
     darkMode := darkMode s; showSettings := showSettings s;
     availableModels := v; activeNav := activeNav s |}.

(** What [loadAvailableModels] reads off each status of the status
    endpoint: [provider], [configured], [healthy] and
    [available_models], typed as the [ProviderStatus] interface and the
    type of [models] say. *)
Record ProviderStatus := {
  ps_provider : jsstring;
  ps_configured : bool;
  ps_healthy : bool;
  ps_available_models : list jsstring;
}.

(** Lines 128-131: the display name put in an option's label. *)
Definition providerName (provider : jsstring) : jsstring :=
  if bool_decide (provider = lit "openai") then lit "OpenAI"
  else if bool_decide (provider = lit "anthropic") then lit "Anthropic"
  else if bool_decide (provider = lit "gemini") then lit "Gemini"
  else if bool_decide (provider = lit "ollama") then lit "Ollama"
  else provider.

(** Lines 126-139: the options one status contributes. *)
Definition optionsOf (status : ProviderStatus) : list ModelOption :=
  if ps_configured status && ps_healthy status &&
     bool_decide (0 < length (ps_available_models status))%nat
  then (λ model,
          {| mo_value := model;
             mo_label := providerName (ps_provider status) ++ lit " " ++ model;
             mo_provider := ps_provider status;
             mo_healthy := ps_healthy status |})
       <$> ps_available_models status
  else [].

Definition defaultOption (value label provider : string) : ModelOption :=
  {| mo_value := lit value; mo_label := lit label;
     mo_provider := lit provider; mo_healthy := false |}.

Definition defaultModels : list ModelOption :=
  [defaultOption "gpt-4" "OpenAI GPT-4" "openai";
   defaultOption "gpt-4-turbo" "OpenAI GPT-4 Turbo" "openai";
   defaultOption "gpt-3.5-turbo" "OpenAI GPT-3.5 Turbo" "openai";
   defaultOption "claude-3-5-sonnet-20241022" "Anthropic Claude 3.5 Sonnet" "anthropic";
   defaultOption "claude-3-opus-20240229" "Anthropic Claude 3 Opus" "anthropic";
   defaultOption "gemini-pro" "Gemini Pro" "gemini";
   defaultOption "gemini-1.5-pro" "Gemini 1.5 Pro" "gemini"].

Definition statusUrl : jsstring :=
  lit "http://localhost:8000/api/v1/settings/providers/status".

(** [loadAvailableModels], run to completion. [fetched] is the outcome of
    [fetch] followed by [response.json()]. *)
Definition loadAvailableModels
    (fetched : Completion unit (list ProviderStatus)) (s : State)
  : State * list NetCall :=
  (match fetched with
   | Throw _ => s
   | Return statuses =>
       let models := concat (optionsOf <$> statuses) in
       match models with
       | [] => setAvailableModels defaultModels s
       | _ :: _ =>
           let s1 := setAvailableModels models s in
           match find mo_healthy models with
           | Some firstHealthy =>
               if negb (truthy (selectedModel s))
               then setSelectedProvider (mo_provider firstHealthy)
                      (setSelectedModel (mo_value firstHealthy) s1)
               else s1
           | None => s1
           end
       end
   end, [HttpGet statusUrl]).

(** Lines 169-174: the options handed to [Header]. *)
Definition models (s : State) : list ModelOption :=
  match availableModels s with
  | _ :: _ => availableModels s
  | [] => [defaultOption "gpt-4" "OpenAI GPT-4" "openai";
           defaultOption "gpt-4-turbo" "OpenAI GPT-4 Turbo" "openai"]
  end.

(** Lines 245-252: [onModelChange] of [Header]. *)
Definition onModelChange (model : jsstring) (s : State) : State :=
  let s1 := setSelectedModel model s in
  match find (λ m, bool_decide (mo_value m = model)) (models s) with
  | Some modelInfo => setSelectedProvider (mo_provider modelInfo) s1
  | None => s1
  end.

(** Lines 104-112: the provider load of the mount effect. *)
Definition loadProviders
    (get : jsstring → Completion AxiosError (list jsstring)) (s : State)
  : State * list NetCall :=
  let '(result, net) := getProviders get in
  (match result with
   | Return providers =>
       let s1 := setAvailableProviders providers s in
       match providers with
       | first :: _ =>
           if negb (truthy (selectedProvider s))
           then setSelectedProvider first s1 else s1
       | [] => s1
       end
   | Throw _ => s
   end, net).

(** One effect of a run of [handleSend] on the [App] state. The run
    belongs to a [ChatInterface] rendered from the state [rendered]: its
    [onNewMessage] is the [handleNewMessage] of that render, which
    computes the updated chat and chat list from the [currentChat] and
    [chats] of [rendered] and stores them; [onArtifactGenerated] only
    stores its argument. [now] is the clock at the call. *)
Definition afterEffect (rendered : State) (now : N)
    (s : State) (e : ChatInterface.Effect) : State :=
  match e with
  | ChatInterface.OnNewMessage m =>
      match currentChat rendered with
      | None => s
      | Some _ =>
          let computed := handleNewMessage now m rendered in
          setChats (chats computed) (setCurrentChat (currentChat computed) s)
      end
  | ChatInterface.OnArtifactGenerated a => handleArtifactGenerated a s
  | ChatInterface.Network _ | ChatInterface.ConsoleError _ => s
  end.

(** The effects of a run, in order; [appClock i] is the clock at the
    [i]-th effect. *)
Fixpoint afterEffects (rendered : State) (appClock : nat → N) (i : nat)
    (effects : list ChatInterface.Effect) (s : State) : State :=
  match effects with
  | [] => s
  | e :: rest =>
      afterEffects rendered appClock (S i) rest
        (afterEffect rendered (appClock i) s e)
  end.

(** One exchange: [handleSend] of the [ChatInterface] rendered from [s],
    run to completion, and what it leaves in the [App] state. *)
Definition exchange
    (toLowerCase : jsstring → jsstring)
    (clock appClock : nat → N)
    (post : ChatRequest → Completion AxiosError ChatResponse)
    (st : ChatInterface.State) (s : State)
  : ChatInterface.State * State :=
  let '(st', effects) :=
    ChatInterface.handleSend toLowerCase clock post (chatInterfaceProps s) st in
  (st', afterEffects s appClock 0 effects s).

(** The current chat, when there is one, is listed and is the active
    one. *)
Definition consistent (s : State) : Prop :=
  ∀ c, currentChat s = Some c →
       c ∈ chats s ∧ activeChatId s = Some (chat_id c).

End App.

(** ** components/MCPConfigDialog.tsx *)

Module MCPConfigDialog.

Record MCPServerConfig := {
  cfg_name : jsstring;
  cfg_command : jsstring;
  cfg_args : list jsstring;
  cfg_env : option (gmap (list N) (list N));
}.

Record EnvRow := {
  row_key : jsstring;
  row_value : jsstring;
}.

(** The form: the [useState] cells of the dialog. *)
Record Form := {
  name : jsstring;
  command : jsstring;
  args : jsstring;
  envKeys : list EnvRow;
}.

(** [acc[k] = v] on a plain object with string [v]: an own property is
    written, except for the key ['__proto__'], whose inherited setter
    ignores a string. *)
Definition assign (acc : gmap (list N) (list N)) (k v : jsstring)
  : gmap (list N) (list N) :=
  if bool_decide (k = lit "__proto__") then acc else <[k := v]> acc.

(** The reducer of [envKeys.reduce]. *)
Definition envStep (acc : gmap (list N) (list N)) (item : EnvRow)
  : gmap (list N) (list N) :=
  if truthy (trim (row_key item))
  then assign acc (trim (row_key item)) (trim (row_value item))
  else acc.

(** The [args] field of the saved configuration. *)
Definition argsOf (args : jsstring) : list jsstring :=
  filter (λ arg, (0 < length arg)%nat) (trim <$> split 32 args).

(** [handleSave]: [None] when the alert is shown and [onSave] is not
    called, otherwise the configuration handed to [onSave]. *)
Definition handleSave (f : Form) : option MCPServerConfig :=
  if negb (truthy (trim (name f))) || negb (truthy (trim (command f)))
  then None
  else
    Some {| cfg_name := trim (name f);
            cfg_command := trim (command f);
            cfg_args := argsOf (args f);
            cfg_env :=
              if bool_decide (0 < length (envKeys f))%nat
              then Some (foldl envStep ∅ (envKeys f))
              else None |}.

Definition addEnvVar (f : Form) : Form :=
  {| name := name f; command := command f; args := args f;
     envKeys := envKeys f ++ [{| row_key := []; row_value := [] |}] |}.

Definition emptyForm : Form :=
  {| name := []; command := []; args := []; envKeys := [] |}.

(** [Object.entries(env).map(([key, value]) => ({ key, value }))]; the
    order of the rows is that of the map's listing. *)
Definition rowsOf (env : gmap (list N) (list N)) : list EnvRow :=
  (λ kv, {| row_key := kv.1; row_value := kv.2 |}) <$> map_to_list env.

(** The effect on [isOpen] and [existingConfig]: when the dialog is open
    the form is filled from the configuration being edited, or reset. *)
Definition onOpen (isOpen : bool) (existingConfig : option MCPServerConfig)
    (f : Form) : Form :=
  if isOpen then
    match existingConfig with
    | Some cfg =>
        {| name := cfg_name cfg;
           command := cfg_command cfg;
           args := join (lit " ") (cfg_args cfg);
           envKeys := match cfg_env cfg with
                      | Some env => rowsOf env
                      | None => []
                      end |}
    | None => emptyForm
    end
  else f.

(** [envKeys.filter((_, i) => i !== index)] *)
Definition removeEnvVar (index : nat) (f : Form) : Form :=
  {| name := name f; command := command f; args := args f;
     envKeys := delete index (envKeys f) |}.

End MCPConfigDialog.

(** ** components/Settings.tsx *)

Module Settings.

Import MCPConfigDialog.

(** The [useState] cells of [Settings]. The provider statuses are kept
    as the objects [response.json()] returned: the [ProviderStatus]
    interface is a compile-time annotation only. *)
Record State := {
  apiKeys : gmap (list N) (list N);
  providerStatuses : list JsObject;
  loading : bool;
  saving : gmap (list N) bool;
  messages : gmap (list N) (list N);
  mcpServers : list MCPServerConfig;
  showMCPDialog : bool;
  editingMCP : option MCPServerConfig;
}.

Definition setApiKeys (v : gmap (list N) (list N)) (s : State) : State :=
  {| apiKeys := v; providerStatuses := providerStatuses s;
     loading := loading s; saving := saving s; messages := messages s;
     mcpServers := mcpServers s; showMCPDialog := showMCPDialog s;
     editingMCP := editingMCP s |}.

Definition setProviderStatuses (v : list JsObject) (s : State) : State :=
  {| apiKeys := apiKeys s; providerStatuses := v; loading := loading s;
     saving := saving s; messages := messages s;
     mcpServers := mcpServers s; showMCPDialog := showMCPDialog s;
     editingMCP := editingMCP s |}.

Definition setLoading (v : bool) (s : State) : State :=
  {| apiKeys := apiKeys s; providerStatuses := providerStatuses s;
     loading := v; saving := saving s; messages := messages s;
     mcpServers := mcpServers s; showMCPDialog := showMCPDialog s;
     editingMCP := editingMCP s |}.

Definition setSaving (v : gmap (list N) bool) (s : State) : State :=
  {| apiKeys := apiKeys s; providerStatuses := providerStatuses s;
     loading := loading s; saving := v; messages := messages s;
     mcpServers := mcpServers s; showMCPDialog := showMCPDialog s;
     editingMCP := editingMCP s |}.

Definition setMessages (v : gmap (list N) (list N)) (s : State) : State :=
  {| apiKeys := apiKeys s; providerStatuses := providerStatuses s;
     loading := loading s; saving := saving s; messages := v;
     mcpServers := mcpServers s; showMCPDialog := showMCPDialog s;
     editingMCP := editingMCP s |}.

Definition setMcpServers (v : list MCPServerConfig) (s : State) : State :=
  {| apiKeys := apiKeys s; providerStatuses := providerStatuses s;
     loading := loading s; saving := saving s; messages := messages s;
     mcpServers := v; showMCPDialog := showMCPDialog s;
     editingMCP := editingMCP s |}.

(** The names every plain object inherits from [Object.prototype]:
    [obj[name]] finds the inherited member, a built-in function (for
    ['__proto__'] the prototype object itself), unless the object has a
    property of its own under that name. *)
Definition inheritedNames : list jsstring :=
  [lit "constructor"; lit "hasOwnProperty"; lit "isPrototypeOf";
   lit "propertyIsEnumerable"; lit "toLocaleString"; lit "toString";
   lit "valueOf"; lit "__proto__"; lit "__defineGetter__";
   lit "__defineSetter__"; lit "__lookupGetter__"; lit "__lookupSetter__"].

(** The calls of [fetch] the dialog makes. [FetchPostKey] carries the
    body [{provider, api_key}] with a string for [api_key];
    [FetchPostInherited] is the same POST when [api_key] is the member of
    [Object.prototype] named [member], which [JSON.stringify] leaves out
    of the body (a function) or writes as an empty object
    (['__proto__']). *)
Inductive Fetch :=
| FetchGet (url : jsstring)
| FetchPostKey (url : jsstring) (provider : JsValue) (api_key : jsstring)
| FetchPostInherited (url : jsstring) (provider : JsValue) (member : jsstring)
| FetchDelete (url : jsstring).

Definition statusUrl : jsstring :=
  lit "http://localhost:8000/api/v1/settings/providers/status".

Definition mcpServersUrl : jsstring :=
  lit "http://localhost:8000/api/v1/settings/mcp/servers".

Definition apiKeysUrl : jsstring :=
  lit "http://localhost:8000/api/v1/settings/api-keys".

(** [`http://localhost:8000/api/v1/settings/api-keys/${provider}`] *)
Definition deleteKeyUrl (provider : JsValue) : jsstring :=
  lit "http://localhost:8000/api/v1/settings/api-keys/" ++ toStringV provider.

(** [loadProviderStatuses], run to completion. [fetched] is the outcome
    of [fetch] followed by [response.json()]: the array of status
    objects, or a rejection. *)
Definition loadProviderStatuses
    (fetched : Completion unit (list JsObject)) (s : State)
  : State * list Fetch :=
  let s1 := setLoading true s in
  let s2 := match fetched with
            | Return statuses => setProviderStatuses statuses s1
            | Throw _ => s1
            end in
  (setLoading false s2, [FetchGet statusUrl]).

(** [loadMCPServers]; the servers are [None] when [response.ok] is
    false. *)
Definition loadMCPServers
    (fetched : Completion unit (option (list MCPServerConfig))) (s : State)
  : State * list Fetch :=
  (match fetched with
   | Return (Some servers) => setMcpServers servers s
   | _ => s
   end, [FetchGet mcpServersUrl]).

(** The effect on [isOpen]: both loads start whenever the dialog
    opens. *)
Definition onIsOpen
    (isOpen : bool)
    (statuses : Completion unit (list JsObject))
    (servers : Completion unit (option (list MCPServerConfig)))
    (s : State)
  : State * list Fetch :=
  if isOpen then
    let '(s1, net1) := loadProviderStatuses statuses s in
    let '(s2, net2) := loadMCPServers servers s1 in
    (s2, net1 ++ net2)
  else (s, []).

(** [handleDeleteKey], run to completion. [deleted] is the outcome of the
    DELETE request; after it the statuses are loaded again. The message
    is written over the messages the handler was created with. *)
Definition handleDeleteKey
    (deleted : Completion unit unit)
    (statuses : Completion unit (list JsObject))
    (provider : JsValue) (s : State)
  : State * list Fetch :=
  match deleted with
  | Return _ =>
      let '(s1, net) := loadProviderStatuses statuses s in
      (setMessages (<[toStringV provider := lit "API key removed"]> (messages s)) s1,
       FetchDelete (deleteKeyUrl provider) :: net)
  | Throw _ => (s, [FetchDelete (deleteKeyUrl provider)])
  end.

(** What [handleSaveKey] does once it has found something truthy under
    [apiKeys[provider]], run to completion, the one-second timer
    included; [post] is the request it sends. [saved] is the outcome of
    the POST: [Return None] when [response.ok], [Return (Some detail)]
    when the server refused, with [data.detail] if any. The handler
    writes over the [messages], [saving] and [apiKeys] it was created
    with. *)
Definition saveKey
    (post : Fetch)
    (saved : Completion unit (option (option jsstring)))
    (statuses : Completion unit (list JsObject))
    (key : jsstring) (s : State)
  : State * list Fetch :=
  let finally_ := setSaving (<[key := false]> (saving s)) in
  match saved with
  | Return None =>
      let s1 := finally_
                  (setMessages (<[key := lit "API key saved successfully!"]>
                                  (messages s)) s) in
      let '(s2, net) := loadProviderStatuses statuses s1 in
      (setApiKeys (<[key := []]> (apiKeys s)) s2, post :: net)
  | Return (Some detail) =>
      (finally_
         (setMessages (<[key := or_else detail (lit "Failed to save API key")]>
                         (messages s)) s), [post])
  | Throw _ =>
      (finally_
         (setMessages (<[key := lit "Error saving API key"]> (messages s)) s),
       [post])
  end.

(** [handleSaveKey]. [apiKeys[provider]] is the string typed for the
    provider when [apiKeys] has one of its own; otherwise, for a provider
    named like a member of [Object.prototype], it is that member, which
    is truthy and passes the [if (!apiKey)] guard. *)
Definition handleSaveKey
    (saved : Completion unit (option (option jsstring)))
    (statuses : Completion unit (list JsObject))
    (provider : JsValue) (s : State)
  : State * list Fetch :=
  let key := toStringV provider in
  let ask :=
    (setMessages (<[key := lit "Please enter an API key"]> (messages s)) s, []) in
  match apiKeys s !! key with
  | Some [] => ask
  | Some apiKey =>
      saveKey (FetchPostKey apiKeysUrl provider apiKey) saved statuses key s
  | None =>
      if bool_decide (key ∈ inheritedNames)
      then saveKey (FetchPostInherited apiKeysUrl provider key)
                   saved statuses key s
      else ask
  end.

Definition names : gmap (list N) (list N) :=
  <[lit "openai" := lit "OpenAI"]>
  (<[lit "anthropic" := lit "Anthropic (Claude)"]>
  (<[lit "gemini" := lit "Google Gemini"]>
  (<[lit "ollama" := lit "Ollama (Local)"]> ∅))).

(** What [getProviderName] returns: a JSON value, or the member of
    [Object.prototype] found under the provider's name. *)
Inductive ProviderLabel :=
| Label (v : JsValue)
| InheritedMember (name : jsstring).

(** [getProviderName]: [names[provider] || provider]. [names] has four
    properties of its own, all truthy; under the other names it inherits
    from [Object.prototype] the lookup finds the inherited member, which
    is truthy as well. *)
Definition getProviderName (provider : JsValue) : ProviderLabel :=
  let key := toStringV provider in
  match names !! key with
  | Some n => Label (JStr n)
  | None =>
      if bool_decide (key ∈ inheritedNames) then InheritedMember key
      else Label provider
  end.

Inductive Icon := XCircle | Check | AlertCircle.

Definition getStatusIcon (status : JsObject) : Icon :=
  if negb (truthyV (prop status (lit "configured"))) then XCircle
  else if truthyV (prop status (lit "healthy")) then Check
  else AlertCircle.

(** What one entry of [providerStatuses.map] reads off its status object
    and shows: the React key, the icon, the display name, the line under
    it, the provider the Remove button hands to [handleDeleteKey] (when
    the button is shown), the models line, whether the key input is
    shown, and the error box. *)
Record StatusRow := {
  sr_key : JsValue;
  sr_icon : Icon;
  sr_name : ProviderLabel;
  sr_text : JsValue;
  sr_remove : option JsValue;
  sr_models : option (jsstring * bool);
  sr_needsKey : bool;
  sr_error : option JsValue;
}.

(** [status.available_models.length > 0 && status.healthy && (...)]:
    the first three models joined by ', ' and whether '...' follows;
    [Throw] when reading [length] of undefined or null, or calling
    [join] on a string, throws. *)
Definition modelsLine (status : JsObject)
  : Completion unit (option (jsstring * bool)) :=
  match prop status (lit "available_models") with
  | JUndefined | JNull => Throw ()
  | JBool _ | JNum _ => Return None
  | JStr s =>
      if bool_decide (0 < length s)%nat && truthyV (prop status (lit "healthy"))
      then Throw () else Return None
  | JStrArr models =>
      if bool_decide (0 < length models)%nat &&
         truthyV (prop status (lit "healthy"))
      then Return (Some (join (lit ", ") (take 3 models),
                         bool_decide (3 < length models)%nat))
      else Return None
  end.

(** One row of the API-keys list; [None] when rendering it throws. *)
Definition statusRow (status : JsObject) : option StatusRow :=
  let provider := prop status (lit "provider") in
  let configured := truthyV (prop status (lit "configured")) in
  let healthy := truthyV (prop status (lit "healthy")) in
  let error := prop status (lit "error") in
  match modelsLine status with
  | Throw _ => None
  | Return models =>
      Some {| sr_key := provider;
              sr_icon := getStatusIcon status;
              sr_name := getProviderName provider;
              sr_text :=
                if configured
                then if healthy then JStr (lit "Connected")
                     else if truthyV error then error
                          else JStr (lit "Connection failed")
                else JStr (lit "Not configured");
              sr_remove := if configured then Some provider else None;
              sr_models := models;
              sr_needsKey := negb configured;
              sr_error :=
                if truthyV error && configured then Some error else None |}
  end.

(** The properties of a status object that the settings dialog reads. *)
Definition statusFields : list jsstring :=
  [lit "provider"; lit "configured"; lit "healthy";
   lit "available_models"; lit "error"].

End Settings.

(** ** components/StarredPage.tsx *)

Module StarredPage.

Inductive ItemType := item_chat | item_artifact.

Inductive ItemData := ChatData (c : Chat) | ArtifactData (a : Artifact).

Record StarredItem := {
  item_id : jsstring;
  item_type : ItemType;
  item_title : jsstring;
  item_description : option jsstring;
  item_createdAt : N;
  item_data : ItemData;
}.

(** [toggleStar] on the [starredItems] cell. *)
Definition toggleStar (item : StarredItem) (starredItems : list StarredItem)
  : list StarredItem :=
  match find (λ i, bool_decide (item_id i = item_id item)) starredItems with
  | Some _ => filter (λ i, item_id i ≠ item_id item) starredItems
  | None => starredItems ++ [item]
  end.

(** An item with this id is starred. *)
Definition starred (id : jsstring) (starredItems : list StarredItem) : Prop :=
  ∃ i, i ∈ starredItems ∧ item_id i = id.

End StarredPage.

(** ** Sample inputs *)

Module Samples.

Import ChatInterface.

Definition sampleClock (n : nat) : N := 1700000000000 + N.of_nat n.

Definition sampleResponse : ChatResponse :=
  {| resp_content := lit "Weekly Report is ready";
     resp_model := lit "gpt-4";
     resp_finish_reason := Some (lit "stop");
     resp_usage := None;
     resp_tool_calls := None |}.

(** A server that answers every request with [r]. *)
Definition answering (r : ChatResponse)
  : ChatRequest → Completion AxiosError ChatResponse :=
  λ _, Return r.

(** A server that rejects every request with status and body [body]. *)
Definition rejecting (body : option ErrorBody)
  : ChatRequest → Completion AxiosError ChatResponse :=
  λ _, Throw {| ax_response := Some body; ax_request := true;
                ax_message := Some (lit "Request failed with status code 401");
                ax_string := lit "AxiosError: Request failed with status code 401" |}.

Definition sampleProps : Props :=
  {| props_messages := [];
     props_provider := lit "openai";
     props_model := lit "gpt-4";
     props_onArtifactGenerated := true |}.

Definition sampleState : State :=
  {| st_input := lit "  show the weekly report ";
     st_isStreaming := false;
     st_streamingContent := [];
     st_error := None |}.

Definition blankState : State :=
  {| st_input := lit "   ";
     st_isStreaming := false;
     st_streamingContent := [];
     st_error := None |}.

Definition emptyRequest : ChatRequest :=
  {| req_provider := lit "openai";
     req_messages := [];
     req_model := Some (lit "gpt-4");
     req_stream := Some false |}.

Definition invalidKeyBody : option ErrorBody :=
  Some {| err_detail := Some (lit "Invalid API Key provided");
          err_message := None |}.

(** What [sendMessage] rethrows for [invalidKeyBody]. *)
Definition invalidKeyThrown : Thrown :=
  {| th_detail := Some (lit "Invalid API Key provided");
     th_message := Some (lit "Invalid API Key provided");
     th_string := lit "[object Object]" |}.

Definition messageOnlyBody : option ErrorBody :=
  Some {| err_detail := None; err_message := Some (lit "boom") |}.

(** A health endpoint that answers [{healthy: h}]. *)
Definition healthAnswering (h : bool)
  : jsstring → Completion AxiosError HealthResponse :=
  λ _, Return {| data_healthy := h |}.

(** A health endpoint that fails with the given description. *)
Definition healthFailing (description : string)
  : jsstring → Completion AxiosError HealthResponse :=
  λ _, Throw {| ax_response := None; ax_request := true;
                ax_message := Some (lit description);
                ax_string := lit "AxiosError: " ++ lit description |}.

Definition sampleBase : jsstring := lit "http://localhost:8000".

(** Callbacks that always return. *)
Definition returning : Stream.Callback → bool := λ _, false.



(** A message event whose data is the object [{content: text}]. *)
Definition delta (text : string) : Stream.SseEvent :=
  Stream.MessageEvent
    (Some (Stream.DObject (<[lit "content" := JStr (lit text)]> ∅))).

(** A message event whose data is [{content: text, finished: true}]. *)
Definition lastDelta (text : string) : Stream.SseEvent :=
  Stream.MessageEvent
    (Some (Stream.DObject (<[lit "content" := JStr (lit text)]>
                           (<[lit "finished" := JBool true]> ∅)))).

Definition sampleChat (id title : string) : Chat :=
  {| chat_id := lit id; chat_title := lit title;
     chat_createdAt := 1700000000000; chat_updatedAt := 1700000000000;
     chat_messages := [] |}.

Definition sampleApp : App.State :=
  {| App.chats := [sampleChat "1" "Veeam Backup Configuration";
                   sampleChat "chat-7" "New Chat";
                   sampleChat "3" "Restore Point Configuration"];
     App.activeChatId := Some (lit "chat-7");
     App.currentChat := Some (sampleChat "chat-7" "New Chat");
     App.selectedProvider := lit "openai";
     App.selectedModel := lit "gpt-4";
     App.availableProviders := [];
     App.artifact := None;
     App.darkMode := false;
     App.showSettings := false;
     App.availableModels := [];
     App.activeNav := App.nav_chats |}.

Definition sampleUserMessage : Message :=
  {| msg_id := lit "msg-1700000000000";
     msg_role := user;
     msg_content := lit "How many restore points does the nightly job keep on the repository?";
     msg_timestamp := 1700000000001;
     msg_toolCalls := None |}.

Definition sampleForm : MCPConfigDialog.Form :=
  {| MCPConfigDialog.name := lit " veeam ";
     MCPConfigDialog.command := lit "npx";
     MCPConfigDialog.args := lit "-y  veeam-mcp ";
     MCPConfigDialog.envKeys :=
       [{| MCPConfigDialog.row_key := lit " VBR_HOST ";
           MCPConfigDialog.row_value := lit " vbr01 " |};
        {| MCPConfigDialog.row_key := lit "  ";
           MCPConfigDialog.row_value := lit "dropped" |}] |}.

Definition unnamedForm : MCPConfigDialog.Form :=
  {| MCPConfigDialog.name := lit "  ";
     MCPConfigDialog.command := lit "npx";
     MCPConfigDialog.args := [];
     MCPConfigDialog.envKeys := [] |}.

(** A status object shaped as the front end expects it. *)
Definition openaiStatus : JsObject :=
  <[lit "provider" := JStr (lit "openai")]>
  (<[lit "configured" := JBool true]>
  (<[lit "healthy" := JBool true]>
  (<[lit "available_models" :=
       JStrArr [lit "gpt-4"; lit "gpt-4-turbo"; lit "gpt-3.5-turbo"; lit "gpt-4o"]]> ∅))).

(** The same status with its identifier under [provider_id]. *)
Definition openaiStatusById : JsObject :=
  <[lit "provider_id" := JStr (lit "openai")]>
  (<[lit "configured" := JBool true]>
  (<[lit "healthy" := JBool true]>
  (<[lit "available_models" :=
       JStrArr [lit "gpt-4"; lit "gpt-4-turbo"; lit "gpt-3.5-turbo"; lit "gpt-4o"]]> ∅))).

Definition closedSettings : Settings.State :=
  {| Settings.apiKeys := ∅;
     Settings.providerStatuses := [];
     Settings.loading := false;
     Settings.saving := ∅;
     Settings.messages := ∅;
     Settings.mcpServers := [];
     Settings.showMCPDialog := false;
     Settings.editingMCP := None |}.

(** A server that cannot be reached: the request goes out, no response
    comes back. *)
Definition unreachable
  : ChatRequest → Completion AxiosError ChatResponse :=
  λ _, Throw {| ax_response := None; ax_request := true;
                ax_message := Some (lit "Network Error");
                ax_string := lit "AxiosError: Network Error" |}.

Definition sampleReply : Message :=
  {| msg_id := lit "msg-1700000000002";
     msg_role := assistant;
     msg_content := lit "The weekly summary is ready. View Report";
     msg_timestamp := 1700000000003;
     msg_toolCalls := None |}.

Definition anthropicStatus : App.ProviderStatus :=
  {| App.ps_provider := lit "anthropic";
     App.ps_configured := true;
     App.ps_healthy := true;
     App.ps_available_models := [lit "claude-3-opus-20240229"] |}.

Definition typedKeySettings : Settings.State :=
  {| Settings.apiKeys := <[lit "openai" := lit "sk-test"]> ∅;
     Settings.providerStatuses := [];
     Settings.loading := false;
     Settings.saving := ∅;
     Settings.messages := ∅;
     Settings.mcpServers := [];
     Settings.showMCPDialog := false;
     Settings.editingMCP := None |}.

Definition starredChat : StarredPage.StarredItem :=
  {| StarredPage.item_id := lit "1";
     StarredPage.item_type := StarredPage.item_chat;
     StarredPage.item_title := lit "Veeam Backup Configuration";
     StarredPage.item_description := None;
     StarredPage.item_createdAt := 1700000000000;
     StarredPage.item_data :=
       StarredPage.ChatData (sampleChat "1" "Veeam Backup Configuration") |}.

End Samples.

(** * Properties *)

(** ** Facts about the string primitives *)

Section StringFacts.

Lemma startsWith_spec pat s :
  startsWith pat s = true ↔ ∃ rest, s = pat ++ rest.
Proof.
  revert s; induction pat as [|p pat IH]; intros s; simpl.
  - split; [intros _; by exists s | done].
  - destruct s as [|c s].
    + split; [done | intros [rest Hr]; discriminate].
    + rewrite andb_true_iff, N.eqb_eq, IH. split.
      * intros [-> [rest ->]]. by exists rest.
      * intros [rest Hr]. injection Hr as -> ->. eauto.
Qed.

Lemma includes_spec s pat : includes s pat = true ↔ Contains s pat.
Proof.
  unfold Contains. induction s as [|c s IH]; simpl.
  - rewrite orb_false_r, startsWith_spec. split.
    + intros [rest Hr]. by exists [], rest.
    + intros (b & a & Hs). symmetry in Hs.
      apply app_eq_nil in Hs as [-> Hs].
      apply app_eq_nil in Hs as [-> ->]. by exists [].
  - rewrite orb_true_iff, startsWith_spec, IH. split.
    + intros [[rest Hr] | (b & a & ->)].
      * by exists [], rest.
      * by exists (c :: b), a.
    + intros (b & a & Hs). destruct b as [|c' b]; simpl in Hs.
      * left. by exists a.
      * right. injection Hs as -> ->. by exists b, a.
Qed.

Lemma includes_false s pat : includes s pat = false ↔ ¬ Contains s pat.
Proof.
  rewrite <- includes_spec. destruct (includes s pat); naive_solver.
Qed.

Lemma truthy_true s : truthy s = true ↔ s ≠ [].
Proof. by destruct s. Qed.

Lemma truthy_false s : truthy s = false ↔ s = [].
Proof. by destruct s. Qed.

Lemma trimStart_head s :
  match trimStart s with
  | [] => True
  | c :: _ => isWhiteSpace c = false
  end.
Proof.
  induction s as [|c s IH]; simpl; [done|].
  destruct (isWhiteSpace c) eqn:E; [done | by rewrite E].
Qed.

Lemma trimStart_suffix s :
  ∃ ws, s = ws ++ trimStart s ∧ forallb isWhiteSpace ws = true.
Proof.
  induction s as [|c s (ws & Hs & Hws)]; simpl.
  - by exists [].
  - destruct (isWhiteSpace c) eqn:E.
    + exists (c :: ws). simpl. rewrite E, Hws. split; [by f_equal | done].
    + by exists [].
Qed.



Lemma split_no_sep sep s : Forall (λ piece, sep ∉ piece) (split sep s).
Proof.
  induction s as [|c s IH]; simpl.
  - repeat constructor. by intros ?%elem_of_nil.
  - destruct (c =? sep) eqn:E.
    + constructor; [by intros ?%elem_of_nil | done].
    + destruct (split sep s) as [|p ps]; inversion IH; subst.
      * repeat constructor. intros ->%list_elem_of_singleton.
        by rewrite N.eqb_refl in E.
      * constructor; [|done]. intros [->|?]%elem_of_cons; [|done].
        by rewrite N.eqb_refl in E.
Qed.

End StringFacts.

Section TrimFacts.

Lemma trimStart_nil_iff s : trimStart s = [] ↔ forallb isWhiteSpace s = true.
Proof.
  induction s as [|c s IH]; simpl; [done|].
  destruct (isWhiteSpace c); simpl; [done|]. split; discriminate.
Qed.

Lemma forallb_reverse (f : N → bool) s :
  forallb f (reverse s) = forallb f s.
Proof.
  apply eq_true_iff_eq. rewrite !forallb_forall. split; intros H x Hx.
  - apply H, list_elem_of_In, elem_of_reverse, list_elem_of_In, Hx.
  - apply H, list_elem_of_In, elem_of_reverse, list_elem_of_In, Hx.
Qed.

(** [trim] gives the empty string exactly on the strings made of white
    space only. *)
Lemma trim_nil_iff s : trim s = [] ↔ forallb isWhiteSpace s = true.
Proof.
  unfold trim, trimEnd. split.
  - intros H. apply (f_equal reverse) in H.
    rewrite reverse_involutive, reverse_nil in H.
    apply trimStart_nil_iff in H. rewrite forallb_reverse in H.
    pose proof (trimStart_head s) as Hh.
    destruct (trimStart s) as [|c t] eqn:E.
    + by apply trimStart_nil_iff.
    + simpl in H. rewrite Hh in H. discriminate.
  - intros H. apply trimStart_nil_iff in H. by rewrite H.
Qed.

(** What [trim] returns: the input without a run of white space at
    each end, neither end of the result being white space. *)
Lemma trim_spec s :
  ∃ before after,
    s = before ++ trim s ++ after ∧
    forallb isWhiteSpace before = true ∧
    forallb isWhiteSpace after = true ∧
    (∀ c, head (trim s) = Some c → isWhiteSpace c = false) ∧
    (∀ c, last (trim s) = Some c → isWhiteSpace c = false).
Proof.
  destruct (trimStart_suffix s) as (a & Hs & Ha).
  destruct (trimStart_suffix (reverse (trimStart s))) as (b & Ht & Hb).
  apply (f_equal reverse) in Ht.
  rewrite reverse_involutive, reverse_app in Ht.
  fold (trimEnd (trimStart s)) in Ht. fold (trim s) in Ht.
  exists a, (reverse b). split; [by rewrite <- Ht|].
  split; [done|]. split; [by rewrite forallb_reverse|]. split.
  - intros c Hc. pose proof (trimStart_head s) as Hh. rewrite Ht in Hh.
    destruct (trim s) as [|c' t]; [done|]. simpl in Hc, Hh. congruence.
  - intros c Hc. unfold trim, trimEnd in Hc. rewrite last_reverse in Hc.
    pose proof (trimStart_head (reverse (trimStart s))) as Hh.
    destruct (trimStart (reverse (trimStart s))) as [|c' t]; [done|].
    simpl in Hc. congruence.
Qed.

End TrimFacts.

Example trim_sample : trim (9 :: lit "  -y veeam ") = lit "-y veeam".
Proof. reflexivity. Qed.

Example split_sample :
  split 32 (lit " a  b") = [[]; lit "a"; []; lit "b"].
Proof. reflexivity. Qed.

Example includes_sample :
  includes (lit "Executive Report") (lit "Report") = true ∧
  includes (lit "executive report") (lit "Report") = false.
Proof. split; reflexivity. Qed.

(** Turns the outcomes of [includes] in the context into [Contains]
    facts. *)
Ltac reflect_includes :=
  repeat match goal with
         | H : includes _ _ = true |- _ => apply includes_spec in H
         | H : includes _ _ = false |- _ => apply includes_false in H
         end.

(** ** The chat exchange: artifacts, error banner, empty input *)

Section ChatExchange.

Import ChatInterface.

Variable toLowerCase : jsstring → jsstring.
Variable clock : nat → N.
Variable post : ChatRequest → Completion AxiosError ChatResponse.

Lemma handleSend_rejected props st :
  ¬ accepted st → handleSend toLowerCase clock post props st = (st, []).
Proof.
  unfold accepted, handleSend. intros H.
  destruct (truthy (trim (st_input st))), (st_isStreaming st); simpl; try done.
  exfalso. by apply H.
Qed.

Lemma handleSend_delivered props st response net :
  accepted st →
  sendMessage post (requestOf props (userMessageOf clock st)) = (Return response, net) →
  (handleSend toLowerCase clock post props st).2 =
    [OnNewMessage (userMessageOf clock st)] ++ (Network <$> net) ++
    [OnNewMessage (assistantMessageOf clock response)] ++
    (if props_onArtifactGenerated props
     then match artifactOf (clock 4%nat) (resp_content response) with
          | Some a => [OnArtifactGenerated a]
          | None => []
          end
     else []).
Proof.
  intros [Hin Hst] Hsend. unfold handleSend.
  by rewrite Hin, Hst, Hsend.
Qed.

Lemma handleSend_failed props st error net :
  accepted st →
  sendMessage post (requestOf props (userMessageOf clock st)) = (Throw error, net) →
  handleSend toLowerCase clock post props st =
    ({| st_input := []; st_isStreaming := false; st_streamingContent := [];
        st_error := Some (errorBanner toLowerCase error) |},
     [OnNewMessage (userMessageOf clock st)] ++ (Network <$> net) ++
     [ConsoleError error]).
Proof.
  intros [Hin Hst] Hsend. unfold handleSend.
  by rewrite Hin, Hst, Hsend.
Qed.

Lemma artifactOf_some now content a :
  artifactOf now content = Some a →
  (Contains content (lit "Dashboard") ∨ Contains content (lit "Report")) ∧
  (Contains content (lit "Dashboard") →
     art_type a = dashboard ∧ art_title a = lit "Veeam Backup Dashboard") ∧
  (¬ Contains content (lit "Dashboard") →
     art_type a = report ∧ art_title a = lit "Executive Backup Report") ∧
  art_content a = content ∧ art_preview a = Some content.
Proof.
  unfold artifactOf.
  destruct (includes content (lit "Dashboard")) eqn:Hd;
    destruct (includes content (lit "Report")) eqn:Hr; simpl;
    intros [= <-]; simpl;
    reflect_includes; intuition.
Qed.

Lemma artifactOf_none now content :
  artifactOf now content = None →
  ¬ (Contains content (lit "Dashboard") ∨ Contains content (lit "Report")).
Proof.
  unfold artifactOf.
  destruct (includes content (lit "Dashboard")) eqn:Hd;
    destruct (includes content (lit "Report")) eqn:Hr; simpl; try done.
  reflect_includes. intuition.
Qed.

Lemma artifact_announced props st response net :
  accepted st →
  props_onArtifactGenerated props = true →
  sendMessage post (requestOf props (userMessageOf clock st)) = (Return response, net) →
  ∀ a, OnArtifactGenerated a ∈ (handleSend toLowerCase clock post props st).2 ↔
       artifactOf (clock 4%nat) (resp_content response) = Some a.
Proof.
  intros Hacc Hcb Hsend a.
  rewrite (handleSend_delivered _ _ _ _ Hacc Hsend), Hcb.
  rewrite !elem_of_app, !list_elem_of_singleton, list_elem_of_fmap.
  destruct (artifactOf (clock 4%nat) (resp_content response)) as [a0|].
  - rewrite list_elem_of_singleton. split.
    + intros [[=] | [(c & [=] & _) | [[=] | [= ->]]]]. done.
    + intros [= ->]. auto.
  - rewrite elem_of_nil. split; [|done].
    by intros [[=] | [(c & [=] & _) | [[=] | []]]].
Qed.

(** C1. For every response that [sendMessage] delivers to [handleSend],
    run with the props [App] gives it, an artifact is announced if and
    only if the response content contains "Dashboard" or "Report"; an
    announced artifact is a dashboard titled 'Veeam Backup Dashboard'
    when the content contains "Dashboard" and otherwise a report titled
    'Executive Backup Report', and its content and preview are the
    response content. *)
Theorem artifact_iff_keyword app st response net :
  let props := App.chatInterfaceProps app in
  accepted st →
  sendMessage post (requestOf props (userMessageOf clock st)) = (Return response, net) →
  let effects := (handleSend toLowerCase clock post props st).2 in
  let content := resp_content response in
  ((∃ a, OnArtifactGenerated a ∈ effects) ↔
     Contains content (lit "Dashboard") ∨ Contains content (lit "Report")) ∧
  (∀ a, OnArtifactGenerated a ∈ effects →
     (Contains content (lit "Dashboard") →
        art_type a = dashboard ∧ art_title a = lit "Veeam Backup Dashboard") ∧
     (¬ Contains content (lit "Dashboard") →
        art_type a = report ∧ art_title a = lit "Executive Backup Report") ∧
     art_content a = content ∧ art_preview a = Some content).
Proof.
  intros props Hacc Hsend effects content. subst effects.
  pose proof (artifact_announced props st response net Hacc eq_refl Hsend) as Hin.
  fold content in Hin. split.
  - split.
    + intros [a Ha%Hin]. by apply artifactOf_some in Ha as [? _].
    + intros Hk. destruct (artifactOf (clock 4%nat) content) as [a|] eqn:E.
      * exists a. by apply Hin.
      * by apply artifactOf_none in E.
  - intros a Ha%Hin. by apply artifactOf_some in Ha as (_ & ? & ? & ? & ?).
Qed.

(** C2. When the chat call throws, the banner tells authentication
    failures from the others: if the extracted error message, lower-cased,
    contains 'api key', 'authentication', 'unauthorized' or
    'key is required', the banner is the reconfigure-credentials text;
    for every other message it is 'Error: ' followed by the message. *)
Theorem error_banner_distinguishes_auth props st error net :
  accepted st →
  sendMessage post (requestOf props (userMessageOf clock st)) = (Throw error, net) →
  let shown := st_error (handleSend toLowerCase clock post props st).1 in
  (authFlavoured toLowerCase (errorMessage error) →
     shown = Some (lit "API key not configured. Please configure your API key in Settings.")) ∧
  (¬ authFlavoured toLowerCase (errorMessage error) →
     shown = Some (lit "Error: " ++ errorMessage error)).
Proof.
  intros Hacc Hsend shown. subst shown.
  rewrite (handleSend_failed _ _ _ _ Hacc Hsend). simpl.
  unfold errorBanner, authFlavoured.
  destruct (includes (toLowerCase (errorMessage error)) (lit "api key")) eqn:H1;
  destruct (includes (toLowerCase (errorMessage error)) (lit "authentication")) eqn:H2;
  destruct (includes (toLowerCase (errorMessage error)) (lit "unauthorized")) eqn:H3;
  destruct (includes (toLowerCase (errorMessage error)) (lit "key is required")) eqn:H4;
  reflect_includes; simpl; intuition.
Qed.

End ChatExchange.

Section ChatExchangeInstances.

Import ChatInterface Samples.

Lemma artifact_iff_keyword_witness :
  (∃ a, OnArtifactGenerated a ∈
          (handleSend asciiToLowerCase sampleClock (answering sampleResponse)
                      (App.chatInterfaceProps sampleApp) sampleState).2) ↔
  Contains (resp_content sampleResponse) (lit "Dashboard") ∨
  Contains (resp_content sampleResponse) (lit "Report").
Proof.
  refine (proj1 (artifact_iff_keyword asciiToLowerCase sampleClock
                   (answering sampleResponse) sampleApp sampleState
                   sampleResponse _ _ _)).
  - split; reflexivity.
  - reflexivity.
Defined.

Lemma error_banner_distinguishes_auth_witness :
  st_error (handleSend asciiToLowerCase sampleClock (rejecting invalidKeyBody)
                       sampleProps sampleState).1 =
  Some (lit "API key not configured. Please configure your API key in Settings.").
Proof.
  refine (proj1 (error_banner_distinguishes_auth asciiToLowerCase sampleClock
                   (rejecting invalidKeyBody) sampleProps sampleState
                   invalidKeyThrown _ _ _) _).
  - split; reflexivity.
  - reflexivity.
  - left. apply includes_spec. reflexivity.
Defined.

End ChatExchangeInstances.

(** ** The chat endpoint at the client boundary *)

Section ChatEndpoint.

Import ChatInterface Samples.

Lemma sendMessage_net post request :
  (sendMessage post request).2 = [HttpPost (lit "/api/v1/chat") request].
Proof.
  unfold sendMessage. destruct (post request) as [data|error]; [done|].
  destruct (ax_response error); [done|]. by destruct (ax_request error).
Qed.

Lemma or_opt_kept a b s : a = Some s → s ≠ [] → or_opt a b = Some s.
Proof. intros -> Hs. destruct s; [done|]. reflexivity. Qed.

Lemma or_opt_skipped a b : skipped a → or_opt a b = b.
Proof. by intros [-> | ->]. Qed.

Lemma or_else_kept a b s : a = Some s → s ≠ [] → or_else a b = s.
Proof. intros -> Hs. destruct s; [done|]. reflexivity. Qed.

Lemma or_else_skipped a b : skipped a → or_else a b = b.
Proof. by intros [-> | ->]. Qed.

(** Refutes the first half of C3 as stated: a chat call with an empty
    message sequence fails before any network call. [sendMessage] given
    [emptyRequest] posts it and returns the server's answer. *)
Lemma sendMessage_posts_empty_request :
  sendMessage (answering sampleResponse) emptyRequest =
    (Return sampleResponse, [HttpPost (lit "/api/v1/chat") emptyRequest]) ∧
  ¬ (∀ post request, req_messages request = [] →
       ∃ e, sendMessage post request = (Throw e, [])).
Proof.
  split; [reflexivity|]. intros H.
  destruct (H (answering sampleResponse) emptyRequest eq_refl) as [e He].
  discriminate He.
Qed.

(** C3, amended. [sendMessage] checks nothing: every request, whatever
    its messages, goes to the server. The guard is in [handleSend]: on an
    input that is empty or white space only it changes nothing and issues
    no request, and every request it does issue carries the transcript
    followed by the user's trimmed, non-empty message, so its message
    list is never empty. *)
Theorem blank_input_issues_no_request toLowerCase clock post props st :
  (∀ request,
     (sendMessage post request).2 = [HttpPost (lit "/api/v1/chat") request]) ∧
  (forallb isWhiteSpace (st_input st) = true →
     handleSend toLowerCase clock post props st = (st, [])) ∧
  (∀ url request,
     Network (HttpPost url request) ∈ (handleSend toLowerCase clock post props st).2 →
     trim (st_input st) ≠ [] ∧
     req_messages request =
       (toWire <$> props_messages props) ++
       [{| wire_role := user; wire_content := trim (st_input st) |}] ∧
     req_messages request ≠ []).
Proof.
  split; [apply sendMessage_net|]. split.
  - intros Hws. apply handleSend_rejected. intros [Hin _].
    apply trim_nil_iff in Hws. rewrite Hws in Hin. discriminate.
  - intros url request Hin.
    destruct (truthy (trim (st_input st))) eqn:Ht;
      destruct (st_isStreaming st) eqn:Hs;
      try (rewrite handleSend_rejected in Hin;
           [by apply elem_of_nil in Hin | intros [? ?]; congruence]).
    assert (Hacc : accepted st) by done.
    assert (Hreq : request = requestOf props (userMessageOf clock st)).
    { pose proof (sendMessage_net post (requestOf props (userMessageOf clock st))) as Hnet.
      destruct (sendMessage post (requestOf props (userMessageOf clock st)))
        as [[response|error] net] eqn:Hsend; simpl in Hnet; subst net.
      - rewrite (handleSend_delivered _ _ _ _ _ _ _ Hacc Hsend) in Hin.
        rewrite !elem_of_app, !list_elem_of_singleton in Hin.
        destruct Hin as [[=] | [Hin | [[=] | Hin]]].
        + apply list_elem_of_singleton in Hin. by injection Hin.
        + destruct (props_onArtifactGenerated props); [|by apply elem_of_nil in Hin].
          destruct (artifactOf _ _); [|by apply elem_of_nil in Hin].
          by apply list_elem_of_singleton in Hin.
      - rewrite (handleSend_failed _ _ _ _ _ _ _ Hacc Hsend) in Hin. simpl in Hin.
        rewrite !elem_of_cons in Hin.
        destruct Hin as [[=] | [Hin | [[=] | Hin]]].
        + by injection Hin.
        + by apply elem_of_nil in Hin. }
    subst request. split; [by apply truthy_true|]. split.
    + unfold requestOf. simpl. by rewrite fmap_app.
    + unfold requestOf. simpl. rewrite fmap_app. intros Hnil.
      apply app_eq_nil in Hnil as [_ Hnil]. discriminate.
Qed.

Lemma blank_input_issues_no_request_witness :
  handleSend asciiToLowerCase sampleClock (answering sampleResponse)
             sampleProps blankState = (blankState, []).
Proof.
  refine (proj1 (proj2 (blank_input_issues_no_request asciiToLowerCase
                          sampleClock (answering sampleResponse)
                          sampleProps blankState)) _).
  reflexivity.
Defined.

(** Refutes C6 as stated: after a server error the rethrown detail is the
    body's [detail], else 'An error occurred'. For a body that has only a
    [message] field the rethrown detail is that message. *)
Lemma sendMessage_detail_from_message :
  (sendMessage (rejecting messageOnlyBody) emptyRequest).1 =
    Throw {| th_detail := Some (lit "boom"); th_message := Some (lit "boom");
             th_string := lit "[object Object]" |} ∧
  ¬ (∀ post request error body,
       post request = Throw error → ax_response error = Some body →
       ∃ e, (sendMessage post request).1 = Throw e ∧
            th_detail e =
              Some (or_else (body ≫= err_detail) (lit "An error occurred"))).
Proof.
  split; [reflexivity|]. intros H.
  destruct (H (rejecting messageOnlyBody) emptyRequest _ messageOnlyBody
              eq_refl eq_refl) as (e & He & Hd).
  injection He as <-. discriminate Hd.
Qed.

(** C6, amended. Every call of [sendMessage] posts its request, a record
    of [provider], [messages], optional [model] and optional [stream], to
    the chat endpoint; a successful call returns the response body, a
    record of [content], [model] and optional [finish_reason], [usage],
    [tool_calls], unchanged; and when the server answered with an error,
    the call rethrows an error whose detail (and message) is a non-empty
    text: the body's [detail] if it has a non-empty one, otherwise the
    body's [message] if it has a non-empty one, otherwise
    'An error occurred'. *)
Theorem chat_endpoint_contract post request :
  (sendMessage post request).2 = [HttpPost (lit "/api/v1/chat") request] ∧
  (∀ data : ChatResponse,
     post request = Return data → (sendMessage post request).1 = Return data) ∧
  (∀ error body,
     post request = Throw error → ax_response error = Some body →
     ∃ e text,
       (sendMessage post request).1 = Throw e ∧
       th_detail e = Some text ∧ th_message e = Some text ∧ text ≠ [] ∧
       (∀ d, body ≫= err_detail = Some d → d ≠ [] → text = d) ∧
       (∀ m, skipped (body ≫= err_detail) →
             body ≫= err_message = Some m → m ≠ [] → text = m) ∧
       (skipped (body ≫= err_detail) → skipped (body ≫= err_message) →
        text = lit "An error occurred")).
Proof.
  split; [apply sendMessage_net|]. split.
  - intros data Hp. unfold sendMessage. by rewrite Hp.
  - intros error body Hp Hr. unfold sendMessage. rewrite Hp, Hr. simpl.
    eexists _, (serverErrorText body). repeat split.
    + unfold serverErrorText, or_else, or_opt.
      destruct (body ≫= err_detail) as [[|??]|];
        destruct (body ≫= err_message) as [[|??]|]; done.
    + intros d Hd Hne. unfold serverErrorText.
      by rewrite (or_opt_kept _ _ d Hd Hne), (or_else_kept _ _ d eq_refl Hne).
    + intros m Hs Hm Hne. unfold serverErrorText.
      by rewrite (or_opt_skipped _ _ Hs), (or_else_kept _ _ m Hm Hne).
    + intros Hs Hs'. unfold serverErrorText.
      by rewrite (or_opt_skipped _ _ Hs), (or_else_skipped _ _ Hs').
Qed.

Lemma chat_endpoint_contract_witness :
  (sendMessage (answering sampleResponse) emptyRequest).1 = Return sampleResponse.
Proof.
  refine (proj1 (proj2 (chat_endpoint_contract (answering sampleResponse)
                          emptyRequest)) sampleResponse _).
  reflexivity.
Defined.

End ChatEndpoint.

(** ** The health check *)

Section HealthCheck.

Import Samples.

(** Refutes the last part of C4 as stated: the error of a failed check is
    captured and exposed by an accessor. A timeout and a refused
    connection leave exactly the same behind, so nothing computed from
    what [checkHealth] returns can give back the error. *)
Lemma checkHealth_keeps_no_error :
  checkHealth (healthFailing "timeout of 3000ms exceeded") (lit "openai") =
  checkHealth (healthFailing "connect ECONNREFUSED") (lit "openai") ∧
  ¬ (∃ lastError : Completion Thrown bool * list NetCall → option jsstring,
       ∀ get provider e,
         get (healthUrl provider) = Throw e →
         lastError (checkHealth get provider) = ax_message e).
Proof.
  split; [reflexivity|]. intros [lastError H].
  pose proof (H (healthFailing "timeout of 3000ms exceeded") (lit "openai") _ eq_refl) as H1.
  pose proof (H (healthFailing "connect ECONNREFUSED") (lit "openai") _ eq_refl) as H2.
  simpl in H1, H2.
  change (checkHealth (healthFailing "connect ECONNREFUSED") (lit "openai"))
    with (checkHealth (healthFailing "timeout of 3000ms exceeded") (lit "openai")) in H2.
  rewrite H1 in H2. discriminate H2.
Qed.

(** C4, amended. [checkHealth] never throws: for every provider and every
    outcome of the request it returns a boolean, the [healthy] field of
    the response when the request succeeds and false when it fails. The
    error of a failed request is dropped: two failed checks of a provider
    are indistinguishable, whatever went wrong. *)
Theorem checkHealth_never_throws get provider :
  (∃ b, (checkHealth get provider).1 = Return b ∧
        (∀ response, get (healthUrl provider) = Return response →
                     b = data_healthy response) ∧
        (∀ e, get (healthUrl provider) = Throw e → b = false)) ∧
  (∀ get' e e',
     get (healthUrl provider) = Throw e →
     get' (healthUrl provider) = Throw e' →
     checkHealth get provider = checkHealth get' provider).
Proof.
  unfold checkHealth. split.
  - destruct (get (healthUrl provider)) as [response|e].
    + exists (data_healthy response). repeat split; [by intros ? [= ->] | done].
    + exists false. repeat split; done.
  - intros get' e e' -> ->. reflexivity.
Qed.

Lemma checkHealth_never_throws_witness :
  checkHealth (healthFailing "timeout of 3000ms exceeded") (lit "openai") =
  checkHealth (healthFailing "connect ECONNREFUSED") (lit "openai").
Proof.
  refine (proj2 (checkHealth_never_throws _ (lit "openai")) _ _ _ _ _);
    reflexivity.
Defined.

End HealthCheck.

(** ** Streaming: nothing is delivered after the source is closed *)

Section Streaming.

Import Stream Samples.

Variable throws : Callback → bool.

Lemma dispatch_closed s e : es_closed s = true → dispatch throws s e = s.
Proof. unfold dispatch. by intros ->. Qed.

Lemma deliver_closed s events :
  es_closed s = true → deliver throws s events = s.
Proof.
  unfold deliver. revert s.
  induction events as [|e events IH]; intros s Hc; simpl; [done|].
  rewrite dispatch_closed by done. by apply IH.
Qed.




End Streaming.

Section StreamingInstances.

Import Stream Samples.

Example stream_of_two_deltas :
  chunks (streamMessage sampleBase returning emptyRequest
            [delta "Hel"; lastDelta "lo"; delta "ignored"]).1 =
  [JStr (lit "Hel"); JStr (lit "lo")].
Proof. reflexivity. Qed.



End StreamingInstances.

(** ** The transcript: appending a message, deleting a chat *)

Section Transcript.

Import App Samples.

Lemma take_all_short (s : jsstring) (n : nat) :
  (length s ≤ n)%nat → substring0 n s = s.
Proof. intros H. unfold substring0. by apply take_ge. Qed.

(** [handleNewMessage] called from the render of the state it writes:
    the message goes at the end of the chat's messages, the earlier ones
    kept in order; the title changes only if it is exactly 'New Chat' and
    the message is the user's, and then becomes the first 50 code units
    of the content, followed by '...' exactly when the content is longer
    than 50; in every other case the title stays. *)
Theorem new_message_title_and_append now message s current :
  currentChat s = Some current →
  ∃ updated,
    currentChat (handleNewMessage now message s) = Some updated ∧
    chat_messages updated = chat_messages current ++ [message] ∧
    (chat_title current = lit "New Chat" → msg_role message = user →
       ((50 < length (msg_content message))%nat →
          chat_title updated = take 50 (msg_content message) ++ lit "...") ∧
       ((length (msg_content message) ≤ 50)%nat →
          chat_title updated = msg_content message)) ∧
    (¬ (chat_title current = lit "New Chat" ∧ msg_role message = user) →
       chat_title updated = chat_title current).
Proof.
  intros Hcur. unfold handleNewMessage. rewrite Hcur.
  eexists. split; [reflexivity|].
  cbn [chat_messages chat_title]. split; [reflexivity|].
  unfold titleAfter. split.
  - intros Ht Hr.
    rewrite (bool_decide_eq_true_2 _ Ht), (bool_decide_eq_true_2 _ Hr).
    cbn [andb]. split.
    + intros Hlen. by rewrite (bool_decide_eq_true_2 _ Hlen).
    + intros Hlen. rewrite bool_decide_eq_false_2 by lia.
      rewrite app_nil_r. by apply take_all_short.
  - intros Hn.
    destruct (bool_decide (chat_title current = lit "New Chat")) eqn:E1;
      destruct (bool_decide (msg_role message = user)) eqn:E2;
      cbn [andb]; try done.
    apply bool_decide_eq_true in E1, E2. by destruct Hn.
Qed.

(** C8. The assistant's message of an answered exchange is not appended
    to the chat as it is by then. [handleSend] calls [onNewMessage] twice,
    for the user's message and, after the server answered, for the
    assistant's; both calls are the [handleNewMessage] of the render the
    send started from. On a chat titled 'New Chat' with no messages, the
    first call stores the user's message and titles the chat after it;
    the second appends the reply to the chat of that earlier render, so
    the stored chat holds the reply alone under the title 'New Chat': the
    user's message is dropped and the title changes back on a message of
    role 'assistant'. *)
Lemma reply_replaces_user_message :
  let run :=
    ChatInterface.handleSend asciiToLowerCase sampleClock
      (answering sampleResponse) (chatInterfaceProps sampleApp) sampleState in
  let question := ChatInterface.userMessageOf sampleClock sampleState in
  let reply := ChatInterface.assistantMessageOf sampleClock sampleResponse in
  let sent := afterEffects sampleApp sampleClock 0 (take 1 run.2) sampleApp in
  let answered :=
    (exchange asciiToLowerCase sampleClock sampleClock
       (answering sampleResponse) sampleState sampleApp).2 in
  run.2 !! 0%nat = Some (ChatInterface.OnNewMessage question) ∧
  run.2 !! 2%nat = Some (ChatInterface.OnNewMessage reply) ∧
  msg_role question = user ∧ msg_role reply = assistant ∧
  chat_messages <$> currentChat sent = Some [question] ∧
  chat_title <$> currentChat sent = Some (lit "show the weekly report") ∧
  chat_messages <$> currentChat answered = Some [reply] ∧
  chat_title <$> currentChat answered = Some (lit "New Chat").
Proof. repeat split; vm_compute; reflexivity. Qed.

(** C10. Deleting a chat by id removes exactly the chats with that id:
    the remaining list holds no chat with the id, and the chats with
    another id are the same chats, in the same order, as before. The
    active-chat selection and the current chat are cleared if the deleted
    id is the active one and left as they were otherwise; every other
    cell of the application state is unchanged. *)
Theorem delete_chat_frame chatId s :
  let s' := handleDeleteChat chatId s in
  Forall (λ c, chat_id c ≠ chatId) (chats s') ∧
  filter (λ c, chat_id c ≠ chatId) (chats s) = chats s' ∧
  chats s' `sublist_of` chats s ∧
  (∀ c, c ∈ chats s' ↔ c ∈ chats s ∧ chat_id c ≠ chatId) ∧
  (activeChatId s = Some chatId →
     activeChatId s' = None ∧ currentChat s' = None) ∧
  (activeChatId s ≠ Some chatId →
     activeChatId s' = activeChatId s ∧ currentChat s' = currentChat s) ∧
  selectedProvider s' = selectedProvider s ∧
  selectedModel s' = selectedModel s ∧
  availableProviders s' = availableProviders s ∧
  artifact s' = artifact s ∧
  darkMode s' = darkMode s ∧
  showSettings s' = showSettings s ∧
  availableModels s' = availableModels s ∧
  activeNav s' = activeNav s.
Proof.
  intros s'. subst s'. unfold handleDeleteChat.
  destruct (decide (activeChatId s = Some chatId)) as [Heq|Hne]; simpl;
    (split; [apply Forall_forall; by intros c [? _]%list_elem_of_filter|]);
    (split; [done|]);
    (split; [apply sublist_filter|]);
    (split; [intros c; rewrite list_elem_of_filter; tauto|]);
    repeat split; try done.
Qed.

Lemma delete_chat_frame_witness :
  activeChatId (handleDeleteChat (lit "chat-7") sampleApp) = None ∧
  currentChat (handleDeleteChat (lit "chat-7") sampleApp) = None.
Proof.
  refine (proj1 (proj2 (proj2 (proj2 (proj2
            (delete_chat_frame (lit "chat-7") sampleApp))))) _).
  reflexivity.
Defined.

End Transcript.

(** ** Saving an MCP server configuration *)

Section McpConfig.

Import MCPConfigDialog Samples.




Lemma argsOf_elem args a :
  a ∈ argsOf args ↔
  a ≠ [] ∧ ∃ token, token ∈ split 32 args ∧ a = trim token.
Proof.
  unfold argsOf. rewrite list_elem_of_filter, list_elem_of_fmap. split.
  - intros [Hlen (token & Ha & Hin)]. split; [|by exists token].
    intros ->. simpl in Hlen. lia.
  - intros [Hne (token & Hin & Ha)]. split; [|by exists token].
    destruct a; [done | simpl; lia].
Qed.






Example saved_sample_config :
  ∃ env, handleSave sampleForm =
           Some {| cfg_name := lit "veeam"; cfg_command := lit "npx";
                   cfg_args := [lit "-y"; lit "veeam-mcp"];
                   cfg_env := Some env |} ∧
         env !! lit "VBR_HOST" = Some (lit "vbr01") ∧ size env = 1%nat.
Proof. eexists. split; [reflexivity|]. split; vm_compute; reflexivity. Qed.

End McpConfig.

(** ** Provider statuses in the settings dialog *)

Section ProviderStatuses.

Import Settings Samples.

Lemma loadProviderStatuses_result fetched s :
  (loadProviderStatuses fetched s).2 = [FetchGet statusUrl] ∧
  loading (loadProviderStatuses fetched s).1 = false ∧
  providerStatuses (loadProviderStatuses fetched s).1 =
    match fetched with
    | Return statuses => statuses
    | Throw _ => providerStatuses s
    end.
Proof. unfold loadProviderStatuses. by destruct fetched. Qed.

Lemma loadMCPServers_statuses fetched s :
  providerStatuses (loadMCPServers fetched s).1 = providerStatuses s ∧
  loading (loadMCPServers fetched s).1 = loading s ∧
  (loadMCPServers fetched s).2 = [FetchGet mcpServersUrl].
Proof. unfold loadMCPServers. by destruct fetched as [[servers|]|]. Qed.

Lemma onIsOpen_statuses fetched servers s :
  (onIsOpen true fetched servers s).2 =
    [FetchGet statusUrl; FetchGet mcpServersUrl] ∧
  loading (onIsOpen true fetched servers s).1 = false ∧
  providerStatuses (onIsOpen true fetched servers s).1 =
    match fetched with
    | Return statuses => statuses
    | Throw _ => providerStatuses s
    end.
Proof.
  unfold onIsOpen.
  pose proof (loadProviderStatuses_result fetched s) as (Hn1 & Hl1 & Hs1).
  destruct (loadProviderStatuses fetched s) as [s1 net1].
  pose proof (loadMCPServers_statuses servers s1) as (Hs2 & Hl2 & Hn2).
  destruct (loadMCPServers servers s1) as [s2 net2].
  simpl in *. subst. by rewrite Hs2, Hl2.
Qed.

Lemma handleDeleteKey_statuses fetched provider s :
  (handleDeleteKey (Return ()) fetched provider s).2 =
    [FetchDelete (deleteKeyUrl provider); FetchGet statusUrl] ∧
  providerStatuses (handleDeleteKey (Return ()) fetched provider s).1 =
    match fetched with
    | Return statuses => statuses
    | Throw _ => providerStatuses s
    end.
Proof.
  unfold handleDeleteKey.
  pose proof (loadProviderStatuses_result fetched s) as (Hn1 & _ & Hs1).
  destruct (loadProviderStatuses fetched s) as [s1 net1].
  simpl in *. by subst.
Qed.

Lemma handleSaveKey_statuses fetched provider apiKey s :
  apiKeys s !! toStringV provider = Some apiKey → apiKey ≠ [] →
  (handleSaveKey (Return None) fetched provider s).2 =
    [FetchPostKey apiKeysUrl provider apiKey; FetchGet statusUrl] ∧
  providerStatuses (handleSaveKey (Return None) fetched provider s).1 =
    match fetched with
    | Return statuses => statuses
    | Throw _ => providerStatuses s
    end.
Proof.
  intros Hk Hne. unfold handleSaveKey, saveKey. rewrite Hk.
  destruct apiKey as [|c apiKey]; [done|].
  match goal with
  | |- context [loadProviderStatuses fetched ?s0] =>
      pose proof (loadProviderStatuses_result fetched s0) as (Hn1 & _ & Hs1);
      destruct (loadProviderStatuses fetched s0) as [s1 net1]
  end.
  simpl in *. by subst.
Qed.

Lemma statusRow_reads_fields status status' :
  (∀ k, k ∈ statusFields → prop status k = prop status' k) →
  statusRow status = statusRow status'.
Proof.
  intros H.
  assert (Hp : prop status (lit "provider") = prop status' (lit "provider"))
    by (apply H; unfold statusFields; rewrite !elem_of_cons; auto 10).
  assert (Hc : prop status (lit "configured") = prop status' (lit "configured"))
    by (apply H; unfold statusFields; rewrite !elem_of_cons; auto 10).
  assert (Hh : prop status (lit "healthy") = prop status' (lit "healthy"))
    by (apply H; unfold statusFields; rewrite !elem_of_cons; auto 10).
  assert (Ha : prop status (lit "available_models") =
               prop status' (lit "available_models"))
    by (apply H; unfold statusFields; rewrite !elem_of_cons; auto 10).
  assert (He : prop status (lit "error") = prop status' (lit "error"))
    by (apply H; unfold statusFields; rewrite !elem_of_cons; auto 10).
  unfold statusRow, modelsLine, getStatusIcon.
  by rewrite Hp, Hc, Hh, Ha, He.
Qed.

(** Refutes C7 as stated: the provider identifier the dialog works with
    is the record's [provider_id]. For a status that carries its
    identifier under [provider_id], the row's key and display name are
    undefined, and its Remove button sends DELETE to
    '.../api-keys/undefined'. *)
Lemma status_provider_id_is_not_read :
  (∃ row, statusRow openaiStatusById = Some row ∧
          sr_key row = JUndefined ∧ sr_name row = Label JUndefined ∧
          sr_remove row = Some JUndefined ∧
          (handleDeleteKey (Return ()) (Return []) JUndefined closedSettings).2 =
            [FetchDelete (lit "http://localhost:8000/api/v1/settings/api-keys/undefined");
             FetchGet statusUrl]) ∧
  ¬ (∀ status row, statusRow status = Some row →
                   sr_key row = prop status (lit "provider_id")).
Proof.
  split.
  - eexists. split; [reflexivity|]. by vm_compute.
  - intros H.
    destruct (statusRow openaiStatusById) as [row|] eqn:E; [|by vm_compute in E].
    specialize (H _ _ E). vm_compute in E. injection E as <-.
    vm_compute in H. discriminate H.
Qed.

(** C7, amended. A provider status is read by the dialog through the
    properties [provider] (the provider identifier), [configured],
    [healthy], [available_models] and [error], and through nothing else:
    two status objects that agree on these five are shown alike. The
    identifier shown and acted on is [provider]; [available_models] is an
    array, shown in its order (the first three, joined by ', ', with
    '...' when there are more). The statuses are fetched again each time
    the dialog opens and after a key is saved or removed, by a GET of the
    status endpoint; when that fetch succeeds the fetched array replaces
    whatever statuses the dialog held, and when it fails the dialog keeps
    the ones it had. *)
Theorem provider_status_as_consumed fetched servers s :
  let reloaded := match fetched with
                  | Return statuses => statuses
                  | Throw _ => providerStatuses s
                  end in
  (∀ status status',
     (∀ k, k ∈ statusFields → prop status k = prop status' k) →
     statusRow status = statusRow status') ∧
  (∀ status row, statusRow status = Some row →
     sr_key row = prop status (lit "provider") ∧
     (∀ models, prop status (lit "available_models") = JStrArr models →
        models ≠ [] → truthyV (prop status (lit "healthy")) = true →
        sr_models row =
          Some (join (lit ", ") (take 3 models),
                bool_decide (3 < length models)%nat))) ∧
  ((onIsOpen true fetched servers s).2 =
     [FetchGet statusUrl; FetchGet mcpServersUrl] ∧
   loading (onIsOpen true fetched servers s).1 = false ∧
   providerStatuses (onIsOpen true fetched servers s).1 = reloaded) ∧
  onIsOpen false fetched servers s = (s, []) ∧
  (∀ provider,
     (handleDeleteKey (Return ()) fetched provider s).2 =
       [FetchDelete (deleteKeyUrl provider); FetchGet statusUrl] ∧
     providerStatuses (handleDeleteKey (Return ()) fetched provider s).1 =
       reloaded) ∧
  (∀ provider apiKey,
     apiKeys s !! toStringV provider = Some apiKey → apiKey ≠ [] →
     (handleSaveKey (Return None) fetched provider s).2 =
       [FetchPostKey apiKeysUrl provider apiKey; FetchGet statusUrl] ∧
     providerStatuses (handleSaveKey (Return None) fetched provider s).1 =
       reloaded).
Proof.
  intros reloaded. subst reloaded.
  split; [apply statusRow_reads_fields|]. split.
  { intros status row. unfold statusRow.
    destruct (modelsLine status) as [models|] eqn:E; [|done].
    intros [= <-]. simpl. split; [done|].
    intros l Hl Hne Hh. unfold modelsLine in E. rewrite Hl, Hh in E.
    rewrite bool_decide_eq_true_2 in E by (destruct l; [done | simpl; lia]).
    simpl in E. injection E as <-. done. }
  split; [apply onIsOpen_statuses|]. split; [done|]. split.
  - intros provider. apply handleDeleteKey_statuses.
  - intros provider apiKey. apply handleSaveKey_statuses.
Qed.

Lemma provider_status_as_consumed_witness :
  sr_key <$> statusRow openaiStatus = Some (JStr (lit "openai")) ∧
  providerStatuses
    (onIsOpen true (Return [openaiStatus]) (Return None) closedSettings).1 =
  [openaiStatus].
Proof.
  pose proof (provider_status_as_consumed (Return [openaiStatus]) (Return None)
                closedSettings) as (_ & Hrow & (_ & _ & Hopen) & _).
  split; [|exact Hopen].
  destruct (statusRow openaiStatus) as [row|] eqn:E; [|by vm_compute in E].
  simpl. f_equal. exact (proj1 (Hrow openaiStatus row E)).
Defined.

End ProviderStatuses.

(** ** Streaming: which deltas arrive, and how a stream ends *)

Section StreamDelivery.

Import Stream.

Variable throws : Callback → bool.

Lemma chunks_call c s :
  chunks (call c s) =
  chunks s ++ match c with OnChunk v => [v] | _ => [] end.
Proof. unfold chunks, call. simpl. rewrite omap_app. by destruct c. Qed.

Lemma chunks_close s : chunks (close s) = chunks s.
Proof. reflexivity. Qed.

Lemma made_call p c s :
  made p (call c s) = (made p s + if p c then 1 else 0)%nat.
Proof.
  unfold made, call. simpl. rewrite filter_app, length_app. f_equal.
  rewrite filter_cons, filter_nil. destruct (p c); by case_decide.
Qed.

Lemma made_close p s : made p (close s) = made p s.
Proof. reflexivity. Qed.

Lemma dispatch_open_chunks s e :
  (∀ c, throws c = false) → es_closed s = false →
  es_closed (dispatch throws s e) = terminating e ∧
  chunks (dispatch throws s e) = chunks s ++ omap delivered [e].
Proof.
  intros Hret Hopen. unfold dispatch. rewrite Hopen.
  destruct e as [[[ |o| ]|]|]; simpl; unfold onerror, caught;
    rewrite ?Hret, ?andb_false_r;
    repeat match goal with |- context [truthyV ?v] => destruct (truthyV v) end;
    simpl; rewrite ?chunks_close, ?chunks_call, ?chunks_close, ?chunks_call;
    simpl; rewrite ?app_nil_r, <- ?app_assoc; done.
Qed.

Lemma deliver_open_chunks events : ∀ s,
  (∀ c, throws c = false) → es_closed s = false →
  chunks (deliver throws s events) =
  chunks s ++ omap delivered (untilTerminated events).
Proof.
  induction events as [|e events IH]; intros s Hret Hopen.
  - simpl. by rewrite app_nil_r.
  - change (deliver throws s (e :: events))
      with (deliver throws (dispatch throws s e) events).
    destruct (dispatch_open_chunks s e Hret Hopen) as [Hc Hch].
    simpl. destruct (terminating e) eqn:Ht.
    + by rewrite deliver_closed.
    + rewrite (IH _ Hret Hc), Hch.
      change (e :: untilTerminated events)
        with ([e] ++ untilTerminated events).
      by rewrite omap_app, app_assoc.
Qed.

(** X1. When the callbacks return, the deltas handed to [onChunk] are
    exactly the truthy [content] values of the events up to and including
    the first terminating event, in the order the events arrived: none is
    dropped, reordered or repeated, and the delta of the finishing event
    itself is still delivered. *)
Theorem deltas_in_arrival_order base request events :
  (∀ c, throws c = false) →
  chunks (streamMessage base throws request events).1 =
  omap delivered (untilTerminated events).
Proof.
  intros Hret. unfold streamMessage. simpl.
  by rewrite deliver_open_chunks.
Qed.

Lemma dispatch_wellEnded s e :
  (∀ err, throws (OnError err) = false) →
  wellEnded s → wellEnded (dispatch throws s e).
Proof.
  intros Herr H. unfold dispatch.
  destruct (es_closed s) eqn:E; [exact H|].
  destruct H as (_ & _ & Hopen & _).
  destruct (Hopen E) as [Hc0 He0].
  unfold wellEnded.
  destruct e as [[[ |o| ]|]|]; simpl; unfold onerror, caught;
    rewrite ?Herr;
    repeat match goal with
           | |- context [truthyV ?v] => destruct (truthyV v)
           | |- context [throws ?c] => destruct (throws c)
           end; simpl;
    rewrite ?made_close, ?made_call, ?made_close, ?made_call,
            ?made_close, ?made_call, ?Hc0, ?He0; simpl;
    repeat split; intros; try done; try lia; congruence.
Qed.

(** X2. Whatever the source delivers and whichever of [onChunk] and
    [onComplete] throw, as long as [onError] returns: [onComplete] is
    called at most once and [onError] at most once; as long as the source
    is open neither has been called, and once it is closed one of them
    has: the caller is always told that the stream ended. *)
Theorem stream_ends_once base request events :
  (∀ err, throws (OnError err) = false) →
  let s := (streamMessage base throws request events).1 in
  (made isComplete s ≤ 1)%nat ∧ (made isError s ≤ 1)%nat ∧
  (es_closed s = false → made isComplete s = 0%nat ∧ made isError s = 0%nat) ∧
  (es_closed s = true → (1 ≤ made isComplete s + made isError s)%nat).
Proof.
  intros Herr. unfold streamMessage. simpl.
  assert (H : ∀ evs s0, wellEnded s0 → wellEnded (deliver throws s0 evs)).
  { induction evs as [|e evs IH]; intros s0 Hs0; [done|].
    apply IH, dispatch_wellEnded, Hs0. exact Herr. }
  apply H. unfold wellEnded, made. simpl. repeat split; intros; done || lia.
Qed.

End StreamDelivery.

(** ** The chat exchange: one request, the banner, the View button *)

Section ChatExchangeMore.

Import ChatInterface.

Variable toLowerCase : jsstring → jsstring.
Variable clock : nat → N.
Variable post : ChatRequest → Completion AxiosError ChatResponse.

Lemma Contains_trans s p q : Contains s p → Contains p q → Contains s q.
Proof.
  intros (b & a & ->) (b' & a' & ->). exists (b ++ b'), (a' ++ a).
  by rewrite <- !app_assoc.
Qed.

Lemma errorBanner_nonempty e : errorBanner toLowerCase e ≠ [].
Proof. unfold errorBanner. by destruct (_ || _). Qed.

(** X3. Every accepted send announces the user's message first and then
    puts exactly one request, a POST of the transcript to the chat
    endpoint, on the network. If the server answers, the assistant's
    message is the only further message announced and no error is shown
    or logged; if the call fails, no further message and no artifact is
    announced and a non-empty error banner is shown. Either way the
    input is left empty and the streaming flag off. *)
Theorem one_request_per_send props st :
  accepted st →
  let request := requestOf props (userMessageOf clock st) in
  let result := handleSend toLowerCase clock post props st in
  st_input result.1 = [] ∧ st_isStreaming result.1 = false ∧
  st_streamingContent result.1 = [] ∧
  ∃ rest,
    result.2 = OnNewMessage (userMessageOf clock st) ::
               Network (HttpPost (lit "/api/v1/chat") request) :: rest ∧
    (∀ c, Network c ∉ rest) ∧
    match post request with
    | Return response =>
        st_error result.1 = None ∧
        (∀ m, OnNewMessage m ∈ rest ↔ m = assistantMessageOf clock response) ∧
        (∀ e, ConsoleError e ∉ rest)
    | Throw _ =>
        (∃ banner, st_error result.1 = Some banner ∧ banner ≠ []) ∧
        (∀ m, OnNewMessage m ∉ rest) ∧
        (∀ a, OnArtifactGenerated a ∉ rest)
    end.
Proof.
  intros Hacc request result. subst result.
  pose proof (sendMessage_net post request) as Hnet.
  destruct (sendMessage post request) as [[response|error] net] eqn:Hsend;
    simpl in Hnet; subst net.
  - assert (Hp : post request = Return response).
    { unfold sendMessage in Hsend. destruct (post request) as [r|err].
      - by injection Hsend as ->.
      - destruct (ax_response err); [done|]. by destruct (ax_request err). }
    rewrite Hp. unfold handleSend. destruct Hacc as [Hin Hst].
    rewrite Hin, Hst. fold request. rewrite Hsend. simpl.
    repeat split; try done. eexists. split; [reflexivity|].
    assert (Hann : ∀ x, x ∈ (if props_onArtifactGenerated props
                            then match artifactOf (clock 4%nat) (resp_content response) with
                                 | Some a => [OnArtifactGenerated a]
                                 | None => []
                                 end
                            else []) → ∃ a, x = OnArtifactGenerated a).
    { intros x. destruct (props_onArtifactGenerated props); [|by intros ?%elem_of_nil].
      destruct (artifactOf _ _); [|by intros ?%elem_of_nil].
      intros ->%list_elem_of_singleton. eauto. }
    split; [|split; [done|split]].
    + intros c [[=] | [a [=]]%Hann]%elem_of_cons.
    + intros m. split.
      * intros [[= ->] | [a [=]]%Hann]%elem_of_cons. done.
      * intros ->. by left.
    + intros e [[=] | [a [=]]%Hann]%elem_of_cons.
  - assert (Hp : ∃ err, post request = Throw err).
    { unfold sendMessage in Hsend. destruct (post request) as [r|err]; [done|].
      eauto. }
    destruct Hp as [err ->].
    rewrite (handleSend_failed toLowerCase clock post props st error _ Hacc Hsend).
    simpl. repeat split; try done. eexists. split; [reflexivity|].
    split; [|split; [|split]].
    + by intros c [[=] | ?%elem_of_nil]%elem_of_cons.
    + eexists. split; [reflexivity | apply errorBanner_nonempty].
    + by intros m [[=] | ?%elem_of_nil]%elem_of_cons.
    + by intros a [[=] | ?%elem_of_nil]%elem_of_cons.
Qed.

Lemma error_prefix_has_no_api_key m :
  Contains (lit "Error: " ++ m) (lit "API key") → Contains m (lit "API key").
Proof.
  intros (b & a & H).
  change (lit "Error: ") with [69; 114; 114; 111; 114; 58; 32] in H.
  change (lit "API key") with [65; 80; 73; 32; 107; 101; 121] in *.
  do 7 (destruct b as [|? b]; [simpl in H; discriminate H|];
        simpl in H; injection H as _ H).
  by exists b, a.
Qed.

(** X4. The error banner comes with the 'Open Settings' link exactly
    when it is the reconfigure-credentials banner, that is, when the
    extracted message is authentication-flavoured: a generic
    'Error: ...' banner never offers the link. This holds for every
    lower-casing that turns an occurrence of 'API key' into one of
    'api key'. *)
Theorem open_settings_iff_auth e :
  (∀ a b, Contains (toLowerCase (a ++ lit "API key" ++ b)) (lit "api key")) →
  showsOpenSettings (errorBanner toLowerCase e) true = true ↔
  authFlavoured toLowerCase (errorMessage e).
Proof.
  intros Hlower. unfold showsOpenSettings, errorBanner, authFlavoured.
  rewrite andb_true_r.
  destruct (includes (toLowerCase (errorMessage e)) (lit "api key")) eqn:H1;
  destruct (includes (toLowerCase (errorMessage e)) (lit "authentication")) eqn:H2;
  destruct (includes (toLowerCase (errorMessage e)) (lit "unauthorized")) eqn:H3;
  destruct (includes (toLowerCase (errorMessage e)) (lit "key is required")) eqn:H4;
  cbn [orb]; reflect_includes;
  try (split; [intros _; tauto | intros _; reflexivity]).
  split; [|tauto]. intros Hin%includes_spec.
  apply error_prefix_has_no_api_key in Hin as (b & a & Hm).
  destruct H1. rewrite Hm. apply Hlower.
Qed.

(** X5. When the request went out and no response came back, the banner
    reads 'Error: No response from server. Please check your
    connection.', whatever the underlying network error says. This holds
    for every lower-casing that maps that text to its lower-case
    form. *)
Theorem no_response_banner props st error :
  toLowerCase (lit "No response from server. Please check your connection.") =
    lit "no response from server. please check your connection." →
  accepted st →
  post (requestOf props (userMessageOf clock st)) = Throw error →
  ax_response error = None → ax_request error = true →
  st_error (handleSend toLowerCase clock post props st).1 =
    Some (lit "Error: No response from server. Please check your connection.").
Proof.
  intros Hlower Hacc Hp Hr Hq.
  erewrite handleSend_failed; [|done|].
  2: { unfold sendMessage. rewrite Hp, Hr, Hq. reflexivity. }
  simpl. unfold errorBanner, errorMessage. simpl. rewrite Hlower. reflexivity.
Qed.

End ChatExchangeMore.

Section ViewButton.

Import ChatInterface ChatMessage.

Lemma view_dashboard_has_dashboard s :
  Contains s (lit "View Dashboard") → Contains s (lit "Dashboard").
Proof.
  intros H. apply (Contains_trans _ _ _ H). by exists (lit "View "), [].
Qed.

Lemma view_report_has_report s :
  Contains s (lit "View Report") → Contains s (lit "Report").
Proof.
  intros H. apply (Contains_trans _ _ _ H). by exists (lit "View "), [].
Qed.

(** X6. Whenever a message bubble shows the View button, [handleSend]
    announces an artifact for the same content, and the button's label
    names that artifact's type: 'View Dashboard' for a dashboard, 'View
    Report' for a report. *)
Theorem view_button_has_artifact message now :
  showsViewButton message = true →
  ∃ a, artifactOf now (msg_content message) = Some a ∧
       (art_type a = dashboard ∧
        viewButtonLabel (msg_content message) = lit "View Dashboard" ∨
        art_type a = report ∧
        viewButtonLabel (msg_content message) = lit "View Report").
Proof.
  unfold showsViewButton, hasViewButton.
  intros [_ Hb]%andb_true_iff. apply orb_true_iff in Hb.
  assert (Hk : Contains (msg_content message) (lit "Dashboard") ∨
               Contains (msg_content message) (lit "Report")).
  { destruct Hb as [H%includes_spec | H%includes_spec].
    - left. by apply view_dashboard_has_dashboard.
    - right. by apply view_report_has_report. }
  unfold artifactOf, viewButtonLabel.
  destruct (includes (msg_content message) (lit "Dashboard")) eqn:Hd.
  - simpl. eexists. split; [reflexivity|]. by left.
  - destruct (includes (msg_content message) (lit "Report")) eqn:Hr.
    + simpl. eexists. split; [reflexivity|]. by right.
    + reflect_includes. tauto.
Qed.

End ViewButton.

(** ** The chat list: opening, creating and deleting chats *)

Section ChatList.

Import App.

Lemma find_first {A} (f : A → bool) (l : list A) x :
  find f l = Some x ↔
  ∃ before after, l = before ++ x :: after ∧ f x = true ∧
                  Forall (λ y, f y = false) before.
Proof.
  induction l as [|a l IH]; simpl.
  - split; [done|]. intros (b & ? & H & _). by destruct b.
  - destruct (f a) eqn:Ha.
    + split.
      * intros [= ->]. by exists [], l.
      * intros (b & af & H & Hx & Hb). destruct b as [|y b].
        -- by injection H as ->.
        -- injection H as -> ->. inversion Hb; congruence.
    + rewrite IH. split.
      * intros (b & af & -> & Hx & Hb). exists (a :: b), af.
        repeat split; [done|]. by constructor.
      * intros (b & af & H & Hx & Hb). destruct b as [|y b].
        -- injection H as -> ->. congruence.
        -- injection H as -> ->. inversion Hb; subst. by exists b, af.
Qed.

Lemma find_none {A} (f : A → bool) (l : list A) :
  find f l = None ↔ Forall (λ y, f y = false) l.
Proof.
  induction l as [|a l IH]; simpl; [by split; [constructor|]|].
  destruct (f a) eqn:Ha.
  - split; [done|]. inversion 1; congruence.
  - rewrite IH. split; [by constructor | by inversion 1].
Qed.


(** X7. Opening a chat by id makes that id the active one, clears the
    artifact and switches to the chats view, leaving the chat list as it
    is. The current chat becomes the first listed chat with that id; when
    no listed chat has the id there is no current chat, although the id
    is still recorded as active. *)
Theorem select_chat_opens_first_match id s :
  let s' := handleSelectChat id s in
  activeChatId s' = Some id ∧ artifact s' = None ∧
  activeNav s' = nav_chats ∧ chats s' = chats s ∧
  (currentChat s' = None ↔ ∀ c, c ∈ chats s → chat_id c ≠ id) ∧
  (∀ c, currentChat s' = Some c ↔
        ∃ before after, chats s = before ++ c :: after ∧ chat_id c = id ∧
                        ∀ c', c' ∈ before → chat_id c' ≠ id).
Proof.
  intros s'. subst s'. unfold handleSelectChat. simpl.
  repeat split; try done.
  - intros Hn%find_none c Hc Hid.
    rewrite Forall_forall in Hn. specialize (Hn c Hc).
    by rewrite bool_decide_eq_true_2 in Hn.
  - intros Hn. apply find_none, Forall_forall. intros c Hc.
    apply bool_decide_eq_false_2. by apply Hn.
  - intros (b & a & Hl & Hx & Hb)%find_first. exists b, a.
    split; [done|]. split; [by apply bool_decide_eq_true in Hx|].
    intros c' Hc'. rewrite Forall_forall in Hb.
    specialize (Hb c' Hc'). by apply bool_decide_eq_false in Hb.
  - intros (b & a & Hl & Hx & Hb). apply find_first. exists b, a.
    split; [done|]. split; [by apply bool_decide_eq_true_2|].
    apply Forall_forall. intros c' Hc'. apply bool_decide_eq_false_2.
    by apply Hb.
Qed.

(** X8. A new chat is put first in the list, in front of the chats
    already there, and becomes the active and current chat, titled
    'New Chat' and empty, with the artifact cleared. Opening it by its id
    afterwards gives the same chat, even if an older chat has the same
    id; and the first message sent by the user in it gives it its title
    and is its only message. *)
Theorem new_chat_is_opened clock s :
  let s' := handleNewChat clock s in
  ∃ newChat,
    chats s' = newChat :: chats s ∧
    currentChat s' = Some newChat ∧
    activeChatId s' = Some (chat_id newChat) ∧
    chat_title newChat = lit "New Chat" ∧ chat_messages newChat = [] ∧
    artifact s' = None ∧
    currentChat (handleSelectChat (chat_id newChat) s') = Some newChat ∧
    (∀ now message, msg_role message = user →
       ∃ updated,
         currentChat (handleNewMessage now message s') = Some updated ∧
         chat_messages updated = [message] ∧
         chat_title updated = titleAfter (lit "New Chat") message ∧
         head (chats (handleNewMessage now message s')) = Some updated).
Proof.
  intros s'. subst s'. unfold handleNewChat. eexists.
  split; [reflexivity|]. split; [reflexivity|]. split; [reflexivity|].
  split; [reflexivity|]. split; [reflexivity|]. split; [reflexivity|]. split.
  - unfold handleSelectChat. cbn [chats setChats setActiveChatId setCurrentChat
      setArtifact setActiveNav currentChat find chat_id].
    by rewrite bool_decide_eq_true_2.
  - intros now message Hrole. unfold handleNewMessage.
    cbn [chats setChats setActiveChatId setCurrentChat setArtifact
         currentChat chat_id chat_title chat_messages chat_createdAt].
    eexists. split; [reflexivity|]. split; [reflexivity|].
    split; [reflexivity|].
    cbn [fmap list_fmap chat_id]. by rewrite bool_decide_eq_true_2.
Qed.



(** X10. What a call of [onNewMessage] stores. The handler belongs to a
    render: it appends the message to the current chat of that render and
    stores this chat together with that render's chat list, the chat
    replaced in it, over whatever the state holds by then. So the stored
    list has the length and order of the rendered list, every rendered
    chat with the current chat's id replaced by the updated chat and
    every other one as it was rendered: a chat created or deleted since
    the render is dropped again or comes back. The selection, the
    artifact and the model settings of the state are left alone. When the
    render has no current chat nothing is stored; and called from the
    render of the state it writes, the call is [handleNewMessage] on that
    state. *)
Theorem new_message_updates_listed_chat rendered now message s :
  (currentChat rendered = None →
     afterEffect rendered now s (ChatInterface.OnNewMessage message) = s) ∧
  afterEffect s now s (ChatInterface.OnNewMessage message) =
    handleNewMessage now message s ∧
  (∀ current, currentChat rendered = Some current →
     let s' := afterEffect rendered now s (ChatInterface.OnNewMessage message) in
     ∃ updated,
       currentChat s' = Some updated ∧
       chat_id updated = chat_id current ∧
       chat_messages updated = chat_messages current ++ [message] ∧
       chat_createdAt updated = chat_createdAt current ∧
       chat_updatedAt updated = now ∧
       length (chats s') = length (chats rendered) ∧
       (∀ i c, chats rendered !! i = Some c →
          chats s' !! i =
            Some (if decide (chat_id c = chat_id current) then updated else c)) ∧
       activeChatId s' = activeChatId s ∧ artifact s' = artifact s ∧
       selectedProvider s' = selectedProvider s ∧
       selectedModel s' = selectedModel s ∧ activeNav s' = activeNav s).
Proof.
  unfold afterEffect, handleNewMessage. split; [by intros ->|]. split.
  - by destruct (currentChat s).
  - intros current ->. eexists. split; [reflexivity|].
    cbn [chat_id chat_messages chat_createdAt chat_updatedAt chats setChats
         setCurrentChat activeChatId artifact selectedProvider selectedModel
         activeNav].
    repeat split.
    + by rewrite length_fmap.
    + intros i c Hc. rewrite list_lookup_fmap, Hc. simpl. f_equal.
      by destruct (decide (chat_id c = chat_id current));
        [rewrite bool_decide_eq_true_2 | rewrite bool_decide_eq_false_2].
Qed.

Lemma consistent_frame s s' :
  chats s' = chats s → currentChat s' = currentChat s →
  activeChatId s' = activeChatId s → consistent s → consistent s'.
Proof. unfold consistent. intros -> -> ->. done. Qed.

Lemma afterEffect_activeChatId rendered now s e :
  activeChatId (afterEffect rendered now s e) = activeChatId s.
Proof.
  unfold afterEffect. destruct e; try done. by destruct (currentChat rendered).
Qed.

Lemma afterEffect_consistent rendered now s e :
  consistent rendered → consistent s →
  activeChatId rendered = activeChatId s →
  consistent (afterEffect rendered now s e).
Proof.
  intros Hr Hs Hact.
  destruct e as [m| | |]; try by apply (consistent_frame s).
  unfold afterEffect, handleNewMessage.
  destruct (currentChat rendered) as [cur|] eqn:Hc; [|done].
  destruct (Hr cur Hc) as [Hin Hcur].
  intros c H. cbn [currentChat chats setChats setCurrentChat activeChatId] in *.
  injection H as <-. cbn [chat_id]. split; [|congruence].
  apply list_elem_of_fmap. exists cur. split; [|done].
  by rewrite bool_decide_eq_true_2.
Qed.

Lemma afterEffects_consistent rendered appClock effects : ∀ i s,
  consistent rendered → consistent s →
  activeChatId rendered = activeChatId s →
  consistent (afterEffects rendered appClock i effects s).
Proof.
  induction effects as [|e effects IH]; intros i s Hr Hs Hact; [done|].
  cbn [afterEffects]. apply IH; [done| |].
  - by apply afterEffect_consistent.
  - by rewrite afterEffect_activeChatId.
Qed.

(** X11. Every handler of the chat list, run on a state in which the
    current chat (if any) is listed and is the active one, leaves such a
    state: creating, opening and deleting chats, storing an artifact,
    loading the model options and providers, choosing a model, and a
    whole exchange. A call of [onNewMessage] or [onArtifactGenerated]
    that belongs to an earlier render does so provided that render was
    such a state and the active chat has not changed since. *)
Theorem handlers_keep_current_chat_listed s :
  consistent s →
  (∀ clock, consistent (handleNewChat clock s)) ∧
  (∀ id, consistent (handleSelectChat id s)) ∧
  (∀ id, consistent (handleDeleteChat id s)) ∧
  (∀ a, consistent (handleArtifactGenerated a s)) ∧
  (∀ fetched, consistent (loadAvailableModels fetched s).1) ∧
  (∀ get, consistent (loadProviders get s).1) ∧
  (∀ model, consistent (onModelChange model s)) ∧
  (∀ rendered now e,
     consistent rendered → activeChatId rendered = activeChatId s →
     consistent (afterEffect rendered now s e)) ∧
  (∀ toLowerCase clock appClock post st,
     consistent (exchange toLowerCase clock appClock post st s).2).
Proof.
  intros Hs.
  split; [|split; [|split; [|split; [|split; [|split; [|split; [|split]]]]]]].
  - intros clock c [= <-]. split; [by left | done].
  - intros id c H. unfold handleSelectChat in H. simpl in H.
    apply find_some in H as [Hin Hid]. apply bool_decide_eq_true in Hid.
    split; [by apply list_elem_of_In | simpl; by rewrite Hid].
  - intros id c H. unfold handleDeleteChat in *.
    destruct (decide (activeChatId s = Some id)) as [Ha|Ha]; [done|].
    simpl in *. destruct (Hs c H) as [Hin Hact]. split; [|done].
    apply list_elem_of_filter. split; [|done]. intros <-. by destruct Ha.
  - intros a. by apply (consistent_frame s).
  - intros fetched. apply (consistent_frame s); [| | |done];
      unfold loadAvailableModels; simpl;
      (destruct fetched as [statuses|]; [|done]);
      (destruct (concat _); [done|]);
      (destruct (find _ _); [|done]); by destruct (negb _).
  - intros get. apply (consistent_frame s); [| | |done];
      unfold loadProviders, getProviders; simpl;
      (destruct (get _) as [[|p ps]|]; try done); by destruct (negb _).
  - intros model. apply (consistent_frame s); [| | |done];
      unfold onModelChange; by destruct (find _ _).
  - intros rendered now e Hr Hact. by apply afterEffect_consistent.
  - intros toLowerCase clock appClock post st. unfold exchange.
    destruct (ChatInterface.handleSend _ _ _ _ _) as [st' effects].
    by apply afterEffects_consistent.
Qed.

End ChatList.

(** ** One exchange as the application sees it *)

Section Exchange.

Import ChatInterface App.

Variable toLowerCase : jsstring → jsstring.
Variable clock appClock : nat → N.
Variable post : ChatRequest → Completion AxiosError ChatResponse.

Lemma sendMessage_ok request response :
  post request = Return response →
  sendMessage post request =
    (Return response, [HttpPost (lit "/api/v1/chat") request]).
Proof. intros H. unfold sendMessage. by rewrite H. Qed.

Lemma sendMessage_throws request error :
  post request = Throw error →
  ∃ e, sendMessage post request =
         (Throw e, [HttpPost (lit "/api/v1/chat") request]).
Proof.
  intros H. unfold sendMessage. rewrite H.
  destruct (ax_response error); [eauto|]. destruct (ax_request error); eauto.
Qed.

Lemma afterEffect_message rendered now s m current :
  currentChat rendered = Some current →
  currentChat (afterEffect rendered now s (OnNewMessage m)) =
    Some {| chat_id := chat_id current;
            chat_title := titleAfter (chat_title current) m;
            chat_createdAt := chat_createdAt current;
            chat_updatedAt := now;
            chat_messages := chat_messages current ++ [m] |}.
Proof.
  intros H. unfold afterEffect, handleNewMessage. rewrite H. reflexivity.
Qed.

Lemma afterEffect_other rendered now s e :
  (∀ m, e ≠ OnNewMessage m) →
  currentChat (afterEffect rendered now s e) = currentChat s.
Proof. destruct e; try done. intros H. by destruct (H m). Qed.

Lemma titleAfter_assistant title m :
  msg_role m = assistant → titleAfter title m = title.
Proof.
  intros H. unfold titleAfter. rewrite H.
  by rewrite (bool_decide_eq_false_2 (assistant = user)), andb_false_r.
Qed.

(** X12. What one exchange leaves in the current chat. Both messages of
    a run of [handleSend] go through the [handleNewMessage] of the render
    the run started from, which appends to the transcript as it was
    before the send. So after a failed call the transcript ends with the
    user's message, titled by it if the chat was new; but after an
    answered call the stored transcript is the old one followed by the
    assistant's message only, under the old title: the user's message,
    though sent to the server, is no longer in it. *)
Theorem exchange_transcript st s current :
  currentChat s = Some current →
  accepted st →
  let request := requestOf (chatInterfaceProps s) (userMessageOf clock st) in
  let s' := (exchange toLowerCase clock appClock post st s).2 in
  req_messages request =
    (toWire <$> chat_messages current) ++ [toWire (userMessageOf clock st)] ∧
  (∀ response, post request = Return response →
     ∃ chat, currentChat s' = Some chat ∧
             chat_messages chat =
               chat_messages current ++ [assistantMessageOf clock response] ∧
             chat_title chat = chat_title current) ∧
  (∀ error, post request = Throw error →
     ∃ chat, currentChat s' = Some chat ∧
             chat_messages chat =
               chat_messages current ++ [userMessageOf clock st] ∧
             chat_title chat =
               titleAfter (chat_title current) (userMessageOf clock st)).
Proof.
  intros Hcur Hacc request s'. subst s'. split; [|split].
  - unfold request, requestOf, chatInterfaceProps. simpl.
    by rewrite Hcur, fmap_app.
  - intros response Hp. unfold exchange.
    pose proof (sendMessage_ok _ _ Hp) as Hsend. fold request in Hsend.
    destruct Hacc as [Hin Hst].
    unfold handleSend. rewrite Hin, Hst. fold request. rewrite Hsend.
    cbn [negb orb fst snd fmap list_fmap app props_onArtifactGenerated
         chatInterfaceProps].
    destruct (artifactOf (clock 4%nat) (resp_content response)) as [a|];
      cbn [afterEffects];
      rewrite ?(afterEffect_other s _ _ (OnArtifactGenerated a)) by done;
      rewrite (afterEffect_message s _ _ _ current Hcur);
      (eexists; split; [reflexivity|]; split; [reflexivity|]);
      by apply titleAfter_assistant.
  - intros error Hp. unfold exchange.
    destruct (sendMessage_throws _ _ Hp) as [e Hsend]. fold request in Hsend.
    destruct Hacc as [Hin Hst].
    unfold handleSend. rewrite Hin, Hst. fold request. rewrite Hsend.
    cbn [negb orb fst snd fmap list_fmap app afterEffects].
    rewrite (afterEffect_other s _ _ (ConsoleError e)) by done.
    rewrite (afterEffect_other s _ _ (Network _)) by done.
    rewrite (afterEffect_message s _ _ _ current Hcur).
    eexists; split; [reflexivity|]; split; reflexivity.
Qed.

End Exchange.

(** ** The model selector *)

Section ModelSelector.

Import ChatInterface App.

Lemma elem_of_optionsOf o status :
  o ∈ optionsOf status ↔
  ps_configured status = true ∧ ps_healthy status = true ∧
  ∃ model, model ∈ ps_available_models status ∧
           o = {| mo_value := model;
                  mo_label := providerName (ps_provider status) ++ lit " " ++ model;
                  mo_provider := ps_provider status;
                  mo_healthy := true |}.
Proof.
  unfold optionsOf.
  destruct (ps_configured status), (ps_healthy status); simpl;
    try (split; [by intros ?%elem_of_nil | by intros (? & ? & _)]).
  case_bool_decide as Hlen.
  - rewrite list_elem_of_fmap. split.
    + intros (model & -> & Hin). eauto.
    + intros (_ & _ & model & Hin & ->). eauto.
  - split; [by intros ?%elem_of_nil|].
    intros (_ & _ & model & Hin & _).
    destruct (ps_available_models status); [by apply elem_of_nil in Hin|].
    simpl in Hlen. lia.
Qed.

Lemma elem_of_concat_options o statuses :
  o ∈ concat (optionsOf <$> statuses) ↔
  ∃ status, status ∈ statuses ∧ o ∈ optionsOf status.
Proof.
  split.
  - intros H. apply list_elem_of_In, in_concat in H as (l & Hl & Ho).
    apply list_elem_of_In, list_elem_of_fmap in Hl as (status & -> & Hs).
    exists status. split; [done|]. by apply list_elem_of_In.
  - intros (status & Hs & Ho). apply list_elem_of_In, in_concat.
    exists (optionsOf status). split; apply list_elem_of_In; [|done].
    apply list_elem_of_fmap. eauto.
Qed.

(** X13. After the statuses have been fetched, the model selector is
    never empty. It offers exactly the models of the providers that are
    configured and healthy, each with its provider, flagged healthy and
    labelled with the provider's display name; when no provider qualifies
    it offers the seven built-in defaults, none flagged healthy. A model
    the user has selected is never replaced by the load, and a failed
    fetch changes nothing. *)
Theorem model_options_after_load fetched s :
  let s' := (loadAvailableModels fetched s).1 in
  (∀ statuses, fetched = Return statuses →
     availableModels s' ≠ [] ∧
     ((∀ o, o ∈ availableModels s' ↔
            ∃ status model,
              status ∈ statuses ∧ ps_configured status = true ∧
              ps_healthy status = true ∧
              model ∈ ps_available_models status ∧
              o = {| mo_value := model;
                     mo_label := providerName (ps_provider status) ++
                                 lit " " ++ model;
                     mo_provider := ps_provider status;
                     mo_healthy := true |}) ∨
      (availableModels s' = defaultModels ∧
       ∀ status, status ∈ statuses →
         ps_configured status = false ∨ ps_healthy status = false ∨
         ps_available_models status = [])) ∧
     (selectedModel s ≠ [] →
        selectedModel s' = selectedModel s ∧
        selectedProvider s' = selectedProvider s)) ∧
  (∀ e, fetched = Throw e → s' = s) ∧
  chats s' = chats s ∧ currentChat s' = currentChat s.
Proof.
  intros s'. subst s'. unfold loadAvailableModels. simpl. split; [|split].
  - intros statuses ->.
    destruct (concat (optionsOf <$> statuses)) as [|o0 os] eqn:Hm.
    + split; [done|]. split.
      * right. split; [done|]. intros status Hs.
        destruct (ps_configured status) eqn:Hc; [|by left].
        destruct (ps_healthy status) eqn:Hh; [|by right; left].
        right; right.
        destruct (ps_available_models status) as [|model ms] eqn:Ha; [done|].
        assert (Hin : {| mo_value := model;
                         mo_label := providerName (ps_provider status) ++
                                     lit " " ++ model;
                         mo_provider := ps_provider status;
                         mo_healthy := true |} ∈ concat (optionsOf <$> statuses)).
        { apply elem_of_concat_options. exists status. split; [done|].
          apply elem_of_optionsOf. repeat split; try done.
          exists model. split; [|done]. rewrite Ha. by left. }
        rewrite Hm in Hin. by apply elem_of_nil in Hin.
      * done.
    + assert (Hsel : ∀ t, selectedModel s ≠ [] →
                selectedModel (if negb (truthy (selectedModel s)) then t
                               else setAvailableModels (o0 :: os) s) = selectedModel s ∧
                selectedProvider (if negb (truthy (selectedModel s)) then t
                               else setAvailableModels (o0 :: os) s) = selectedProvider s).
      { intros t Hne. destruct (truthy (selectedModel s)) eqn:E; [done|].
        by apply truthy_false in E. }
      assert (Hav : availableModels
                (match find mo_healthy (o0 :: os) with
                 | Some firstHealthy =>
                     if negb (truthy (selectedModel s))
                     then setSelectedProvider (mo_provider firstHealthy)
                            (setSelectedModel (mo_value firstHealthy)
                               (setAvailableModels (o0 :: os) s))
                     else setAvailableModels (o0 :: os) s
                 | None => setAvailableModels (o0 :: os) s
                 end) = o0 :: os).
      { destruct (find _ _); [|done]. by destruct (negb _). }
      rewrite Hav. split; [done|]. split.
      * left. intros o. rewrite <- Hm, elem_of_concat_options. split.
        -- intros (status & Hs & (Hc & Hh & model & Hin & ->)%elem_of_optionsOf).
           exists status, model. done.
        -- intros (status & model & Hs & Hc & Hh & Hin & ->).
           exists status. split; [done|]. apply elem_of_optionsOf. eauto.
      * intros Hne. destruct (find _ _); [apply Hsel, Hne | done].
  - by intros e ->.
  - destruct fetched as [statuses|]; [|done].
    destruct (concat _); [done|].
    destruct (find _ _); [|done]. by destruct (negb _).
Qed.

(** X14. Choosing the first offered option with a given model name makes
    that model and that option's provider the selection, and the next
    request carries exactly them. Choosing a model name that no offered
    option has changes the model only: the provider stays. *)
Theorem chosen_model_is_requested model s :
  let s' := onModelChange model s in
  selectedModel s' = model ∧
  (∀ before o after,
     models s = before ++ o :: after → mo_value o = model →
     (∀ o', o' ∈ before → mo_value o' ≠ model) →
     selectedProvider s' = mo_provider o ∧
     ∀ userMessage,
       req_provider (requestOf (chatInterfaceProps s') userMessage) =
         mo_provider o ∧
       req_model (requestOf (chatInterfaceProps s') userMessage) = Some model) ∧
  ((∀ o, o ∈ models s → mo_value o ≠ model) →
     selectedProvider s' = selectedProvider s) ∧
  chats s' = chats s ∧ currentChat s' = currentChat s.
Proof.
  intros s'. subst s'. unfold onModelChange. split; [|split; [|split]].
  - by destruct (find _ _).
  - intros before o after Hl Hv Hb.
    assert (Hf : find (λ m, bool_decide (mo_value m = model)) (models s) = Some o).
    { apply find_first. exists before, after. split; [done|].
      split; [by apply bool_decide_eq_true_2|].
      apply Forall_forall. intros o' Ho'. apply bool_decide_eq_false_2.
      by apply Hb. }
    rewrite Hf. split; [done|]. intros userMessage. done.
  - intros Hn.
    assert (Hf : find (λ m, bool_decide (mo_value m = model)) (models s) = None).
    { apply find_none, Forall_forall. intros o Ho.
      apply bool_decide_eq_false_2. by apply Hn. }
    by rewrite Hf.
  - by destruct (find _ _).
Qed.

End ModelSelector.

(** ** Editing and re-saving an MCP server configuration *)

Section McpConfigRoundTrip.

Import MCPConfigDialog.

Lemma trimStart_fixed s :
  (∀ c, head s = Some c → isWhiteSpace c = false) → trimStart s = s.
Proof.
  destruct s as [|c s]; [done|]. intros H. simpl. by rewrite (H c eq_refl).
Qed.

Lemma trimEnd_fixed s :
  (∀ c, last s = Some c → isWhiteSpace c = false) → trimEnd s = s.
Proof.
  intros H. unfold trimEnd. rewrite trimStart_fixed.
  - apply reverse_involutive.
  - intros c Hc. rewrite head_reverse in Hc. by apply H.
Qed.

Lemma trim_idem s : trim (trim s) = trim s.
Proof.
  destruct (trim_spec s) as (_ & _ & _ & _ & _ & Hh & Hl).
  unfold trim at 1. rewrite (trimStart_fixed _ Hh). by apply trimEnd_fixed.
Qed.

Lemma trim_no_sep sep token : sep ∉ token → sep ∉ trim token.
Proof.
  destruct (trim_spec token) as (b & a & Ht & _). intros Hn Hin.
  apply Hn. rewrite Ht. rewrite !elem_of_app. auto.
Qed.

Lemma split_single sep a : sep ∉ a → split sep a = [a].
Proof.
  induction a as [|c a IH]; [done|]. intros Hn. simpl.
  destruct (c =? sep) eqn:E.
  - apply N.eqb_eq in E as ->. destruct Hn. by left.
  - rewrite IH; [done|]. intros Hin. apply Hn. by right.
Qed.

Lemma split_app_sep sep a rest :
  sep ∉ a → split sep (a ++ sep :: rest) = a :: split sep rest.
Proof.
  induction a as [|c a IH]; intros Hn; simpl.
  - by rewrite N.eqb_refl.
  - destruct (c =? sep) eqn:E.
    + apply N.eqb_eq in E as ->. destruct Hn. by left.
    + rewrite IH; [done|]. intros Hin. apply Hn. by right.
Qed.

Lemma split_join sep l :
  l ≠ [] → Forall (λ a, sep ∉ a) l → split sep (join [sep] l) = l.
Proof.
  induction l as [|a l IH]; [done|]. intros _ Hall.
  inversion Hall as [|? ? Ha Hl]; subst.
  destruct l as [|b l].
  - simpl. by apply split_single.
  - change (join [sep] (a :: b :: l)) with (a ++ sep :: join [sep] (b :: l)).
    rewrite split_app_sep by done. f_equal. by apply IH.
Qed.

Lemma argsOf_join l :
  Forall (λ a, a ≠ [] ∧ trim a = a ∧ 32 ∉ a) l →
  argsOf (join (lit " ") l) = l.
Proof.
  intros Hall. destruct l as [|a0 l0] eqn:El; [reflexivity|]. rewrite <- El in *.
  assert (Hne : l ≠ []) by (by rewrite El).
  unfold argsOf. change (lit " ") with [32].
  rewrite split_join; [|done|].
  2: { eapply Forall_impl; [exact Hall|]. by intros a (_ & _ & ?). }
  clear El Hne. induction Hall as [|a l (Hne & Ht & _) Hall IH]; [done|].
  rewrite fmap_cons, Ht, filter_cons_True.
  - by rewrite IH.
  - destruct a; [done | simpl; lia].
Qed.

Lemma argsOf_clean args :
  Forall (λ a, a ≠ [] ∧ trim a = a ∧ 32 ∉ a) (argsOf args).
Proof.
  apply Forall_forall. intros a (Hne & token & Hin & ->)%argsOf_elem.
  split; [done|]. split; [apply trim_idem|].
  apply trim_no_sep.
  pose proof (split_no_sep 32 args) as Hs. rewrite Forall_forall in Hs.
  by apply Hs.
Qed.

Lemma foldl_envStep_entries rows : ∀ acc k v,
  foldl envStep acc rows !! k = Some v →
  acc !! k = Some v ∨
  (truthy (trim k) = true ∧ trim k = k ∧ k ≠ lit "__proto__" ∧ trim v = v).
Proof.
  induction rows as [|r rows IH]; intros acc k v; simpl; [by left|].
  intros [H | H]%IH; [|by right].
  unfold envStep in H. destruct (truthy (trim (row_key r))) eqn:Ht; [|by left].
  unfold assign in H. case_bool_decide as Hp; [by left|].
  destruct (decide (trim (row_key r) = k)) as [<-|Hne].
  - rewrite lookup_insert_eq in H. injection H as <-. right.
    by rewrite !trim_idem.
  - rewrite lookup_insert_ne in H by done. by left.
Qed.

Lemma foldl_envStep_clean (l : list (jsstring * jsstring)) : ∀ acc,
  Forall (λ kv, truthy (trim kv.1) = true ∧ trim kv.1 = kv.1 ∧
                kv.1 ≠ lit "__proto__" ∧ trim kv.2 = kv.2) l →
  NoDup l.*1 →
  foldl envStep acc
    ((λ kv, {| row_key := kv.1; row_value := kv.2 |}) <$> l) =
  list_to_map l ∪ acc.
Proof.
  induction l as [|[k v] l IH]; intros acc Hall Hnd.
  - simpl. by rewrite (left_id_L ∅ (∪)).
  - inversion Hall as [|? ? (Ht & Hk & Hp & Hv) Hall']; subst.
    simpl in Ht, Hk, Hp, Hv.
    rewrite fmap_cons in Hnd. apply NoDup_cons in Hnd as [Hnin Hnd].
    rewrite fmap_cons. cbn [foldl]. rewrite IH by done.
    unfold envStep, assign. simpl. rewrite Ht, Hk, Hv.
    rewrite bool_decide_eq_false_2 by done.
    cbn [list_to_map foldr]. rewrite <- insert_union_l.
    symmetry. apply insert_union_r.
    by apply not_elem_of_list_to_map_1.
Qed.

Lemma foldl_envStep_rowsOf env :
  (∀ k v, env !! k = Some v →
     truthy (trim k) = true ∧ trim k = k ∧ k ≠ lit "__proto__" ∧ trim v = v) →
  foldl envStep ∅ (rowsOf env) = env.
Proof.
  intros Hclean. unfold rowsOf. rewrite foldl_envStep_clean.
  - by rewrite list_to_map_to_list, (right_id_L ∅ (∪)).
  - apply Forall_forall. intros [k v] Hin%elem_of_map_to_list.
    by apply Hclean.
  - apply NoDup_fst_map_to_list.
Qed.

(** X15. Re-opening the dialog on a configuration that [handleSave]
    produced and saving again without touching the form gives the same
    configuration back: same name, command and args, and the same env
    entries. The one difference is an env that ended up empty (rows
    whose keys were all blank): on re-save it is left out. *)
Theorem resave_gives_same_config f cfg f0 :
  handleSave f = Some cfg →
  handleSave (onOpen true (Some cfg) f0) =
  Some {| cfg_name := cfg_name cfg;
          cfg_command := cfg_command cfg;
          cfg_args := cfg_args cfg;
          cfg_env := match cfg_env cfg with
                     | Some env => if decide (env = ∅) then None else Some env
                     | None => None
                     end |}.
Proof.
  unfold handleSave at 1.
  destruct (truthy (trim (name f))) eqn:Hn;
    destruct (truthy (trim (command f))) eqn:Hc; simpl; try done.
  intros [= <-]. unfold handleSave, onOpen.
  cbn [name command args envKeys cfg_name cfg_command cfg_args cfg_env].
  rewrite !trim_idem, Hn, Hc. cbn [negb orb]. f_equal.
  rewrite (argsOf_join _ (argsOf_clean _)). f_equal.
  destruct (bool_decide (0 < length (envKeys f))%nat) eqn:Hrows.
  - set (env := foldl envStep ∅ (envKeys f)).
    assert (Hclean : ∀ k v, env !! k = Some v →
              truthy (trim k) = true ∧ trim k = k ∧
              k ≠ lit "__proto__" ∧ trim v = v).
    { intros k v [H|H]%foldl_envStep_entries; [|done].
      by rewrite lookup_empty in H. }
    destruct (decide (env = ∅)) as [He|He].
    + rewrite He. unfold rowsOf. rewrite map_to_list_empty. reflexivity.
    + rewrite bool_decide_eq_true_2.
      * by rewrite foldl_envStep_rowsOf.
      * unfold rowsOf. rewrite length_fmap.
        destruct (map_to_list env) eqn:E; [|simpl; lia].
        by apply map_to_list_empty_iff in E.
  - reflexivity.
Qed.

(** X16. Adding an env row and removing it again restores the form.
    Saving with a freshly added, still blank row saves the same name,
    command, args and env entries as without it; the only effect of the
    blank row is that an env that would have been left out is saved as an
    empty mapping. *)
Theorem blank_env_row_adds_nothing f :
  removeEnvVar (length (envKeys f)) (addEnvVar f) = f ∧
  (handleSave f = None → handleSave (addEnvVar f) = None) ∧
  (∀ cfg, handleSave f = Some cfg →
     handleSave (addEnvVar f) =
     Some {| cfg_name := cfg_name cfg;
             cfg_command := cfg_command cfg;
             cfg_args := cfg_args cfg;
             cfg_env := Some (default ∅ (cfg_env cfg)) |}).
Proof.
  split; [|split].
  - unfold removeEnvVar, addEnvVar. destruct f as [n c a rows].
    cbn [name command args envKeys]. f_equal.
    by rewrite (delete_middle rows []), app_nil_r.
  - unfold handleSave, addEnvVar. cbn [name command args envKeys].
    by destruct (negb (truthy (trim (name f))) ||
                 negb (truthy (trim (command f)))).
  - unfold handleSave, addEnvVar. cbn [name command args envKeys].
    destruct (negb (truthy (trim (name f))) ||
              negb (truthy (trim (command f)))); [done|].
    intros cfg [= <-]. cbn [cfg_name cfg_command cfg_args cfg_env].
    f_equal. f_equal.
    rewrite bool_decide_eq_true_2 by (rewrite length_app; simpl; lia).
    rewrite foldl_app. cbn [foldl]. unfold envStep at 1.
    cbn [row_key row_value]. change (truthy (trim [])) with false.
    cbv iota. case_bool_decide as Hrows; [done|].
    destruct (envKeys f); [done | simpl in Hrows; lia].
Qed.

End McpConfigRoundTrip.

(** ** Saving an API key *)

Section ApiKeys.

Import Settings.

Lemma saveKey_outcome post saved statuses key s :
  let result := saveKey post saved statuses key s in
  head result.2 = Some post ∧
  (∀ f, f ∈ result.2 → f = post ∨ f = FetchGet statusUrl) ∧
  saving result.1 !! key = Some false ∧
  (saved = Return None →
     apiKeys result.1 !! key = Some [] ∧
     messages result.1 !! key = Some (lit "API key saved successfully!") ∧
     result.2 = [post; FetchGet statusUrl]) ∧
  (saved ≠ Return None →
     apiKeys result.1 = apiKeys s ∧
     providerStatuses result.1 = providerStatuses s ∧
     result.2 = [post] ∧
     ∃ text, messages result.1 !! key = Some text ∧ text ≠ []).
Proof.
  intros result. subst result. unfold saveKey.
  destruct saved as [[detail|]|e].
  - cbn [fst snd head]. split; [done|]. split.
    { intros f ->%list_elem_of_singleton. by left. }
    split; [apply lookup_insert_eq|]. split; [done|]. intros _.
    split; [done|]. split; [done|]. split; [done|]. eexists.
    split; [apply lookup_insert_eq|].
    unfold or_else. destruct detail as [[|d ds]|]; done.
  - unfold loadProviderStatuses. cbn [fst snd head]. split; [done|]. split.
    { intros f [-> | ->%list_elem_of_singleton]%elem_of_cons; auto. }
    split; [destruct statuses; apply lookup_insert_eq|]. split.
    + intros _. split; [apply lookup_insert_eq|].
      split; [|done]. destruct statuses; apply lookup_insert_eq.
    + by intros [].
  - cbn [fst snd head]. split; [done|]. split.
    { intros f ->%list_elem_of_singleton. by left. }
    split; [apply lookup_insert_eq|]. split; [done|]. intros _.
    split; [done|]. split; [done|]. split; [done|]. eexists.
    split; [apply lookup_insert_eq | done].
Qed.

(** X17. [handleSaveKey] sends a key only if one was typed: every POST
    that carries a key string carries the non-empty string typed for the
    provider. With nothing typed for a provider whose name is not a
    member name of [Object.prototype], or with the input emptied, it
    sends nothing and asks for a key. With a key typed it sends exactly
    one POST with the provider and that key; the key is cleared only
    after the server accepted it; when the server refuses or the request
    fails, the key stays in the input, a non-empty message is shown, and
    the statuses are not fetched again; the saving flag of the provider
    ends false. For a provider named like a member of [Object.prototype]
    with nothing typed, the inherited member passes for the key: a POST
    goes out that carries no key string. *)
Theorem save_key_sends_typed_key saved statuses provider s :
  let key := toStringV provider in
  let result := handleSaveKey saved statuses provider s in
  (∀ url p k, FetchPostKey url p k ∈ result.2 →
     url = apiKeysUrl ∧ p = provider ∧ apiKeys s !! key = Some k ∧ k ≠ []) ∧
  (apiKeys s !! key = Some [] ∨
   (apiKeys s !! key = None ∧ key ∉ inheritedNames) →
     result.2 = [] ∧ apiKeys result.1 = apiKeys s ∧
     messages result.1 !! key = Some (lit "Please enter an API key")) ∧
  (∀ apiKey, apiKeys s !! key = Some apiKey → apiKey ≠ [] →
     head result.2 = Some (FetchPostKey apiKeysUrl provider apiKey) ∧
     (∀ url p k, FetchPostKey url p k ∈ result.2 →
                 url = apiKeysUrl ∧ p = provider ∧ k = apiKey) ∧
     saving result.1 !! key = Some false ∧
     (saved = Return None →
        apiKeys result.1 !! key = Some [] ∧
        messages result.1 !! key = Some (lit "API key saved successfully!") ∧
        result.2 = [FetchPostKey apiKeysUrl provider apiKey;
                    FetchGet statusUrl]) ∧
     (saved ≠ Return None →
        apiKeys result.1 = apiKeys s ∧
        providerStatuses result.1 = providerStatuses s ∧
        result.2 = [FetchPostKey apiKeysUrl provider apiKey] ∧
        ∃ text, messages result.1 !! key = Some text ∧ text ≠ [])) ∧
  (apiKeys s !! key = None → key ∈ inheritedNames →
     head result.2 = Some (FetchPostInherited apiKeysUrl provider key) ∧
     (∀ url p k, FetchPostKey url p k ∉ result.2) ∧
     saving result.1 !! key = Some false).
Proof.
  intros key result. subst result. unfold handleSaveKey. fold key.
  split; [|split; [|split]].
  - intros url p k.
    destruct (apiKeys s !! key) as [[|c apiKey]|] eqn:Hk.
    + by intros ?%elem_of_nil.
    + intros Hin.
      destruct (saveKey_outcome (FetchPostKey apiKeysUrl provider (c :: apiKey))
                  saved statuses key s) as (_ & Hall & _).
      by destruct (Hall _ Hin) as [[= -> -> ->] | [=]].
    + case_bool_decide; [|by intros ?%elem_of_nil].
      intros Hin.
      destruct (saveKey_outcome (FetchPostInherited apiKeysUrl provider key)
                  saved statuses key s) as (_ & Hall & _).
      by destruct (Hall _ Hin) as [[=] | [=]].
  - intros [-> | [-> Hn]]; [|rewrite bool_decide_eq_false_2 by done];
      simpl; by rewrite lookup_insert_eq.
  - intros apiKey -> Hne. destruct apiKey as [|c apiKey]; [done|].
    destruct (saveKey_outcome (FetchPostKey apiKeysUrl provider (c :: apiKey))
                saved statuses key s) as (Hhead & Hall & Hsaving & Hok & Hfail).
    split; [done|]. split; [|done].
    intros url p k Hin. by destruct (Hall _ Hin) as [[= -> -> ->] | [=]].
  - intros -> Hin. rewrite bool_decide_eq_true_2 by done.
    destruct (saveKey_outcome (FetchPostInherited apiKeysUrl provider key)
                saved statuses key s) as (Hhead & Hall & Hsaving & _).
    split; [done|]. split; [|done].
    intros url p k Hpost. by destruct (Hall _ Hpost) as [[=] | [=]].
Qed.

End ApiKeys.

(** ** Starred items *)

Section Starred.

Import StarredPage.

Lemma filter_all {A} (P : A → Prop) `{!∀ x, Decision (P x)} (l : list A) :
  Forall P l → filter P l = l.
Proof.
  induction 1 as [|x l Hx Hl IH]; [done|].
  by rewrite filter_cons_True, IH.
Qed.

(** X18. [toggleStar] flips whether an item's id is starred and touches
    no item with another id; toggling an item that was not starred twice
    gives back the original list; and a list in which every id occurs
    once stays such a list. *)
Theorem toggle_star_flips item items :
  let items' := toggleStar item items in
  (starred (item_id item) items' ↔ ¬ starred (item_id item) items) ∧
  (∀ i, item_id i ≠ item_id item → (i ∈ items' ↔ i ∈ items)) ∧
  (¬ starred (item_id item) items → toggleStar item items' = items) ∧
  (NoDup (item_id <$> items) → NoDup (item_id <$> items')).
Proof.
  intros items'. subst items'. unfold toggleStar.
  destruct (find (λ i, bool_decide (item_id i = item_id item)) items)
    as [found|] eqn:Hf.
  - apply find_some in Hf as [Hin Hid].
    apply list_elem_of_In in Hin. apply bool_decide_eq_true in Hid.
    assert (Hst : starred (item_id item) items) by (by exists found).
    split; [|split; [|split]].
    + split; [|done]. intros (i & [Hi _]%list_elem_of_filter & Hid'). done.
    + intros i Hi. rewrite list_elem_of_filter. tauto.
    + done.
    + intros Hnd. eapply sublist_NoDup; [exact Hnd|].
      apply fmap_sublist, sublist_filter.
  - apply find_none in Hf. rewrite Forall_forall in Hf.
    assert (Hns : ∀ i, i ∈ items → item_id i ≠ item_id item).
    { intros i Hi. specialize (Hf i Hi). by apply bool_decide_eq_false in Hf. }
    assert (Hst : ¬ starred (item_id item) items).
    { intros (i & Hi & Hid). by apply (Hns i Hi). }
    split; [|split; [|split]].
    + split; [done|]. intros _. exists item. split; [|done].
      apply elem_of_app. right. by left.
    + intros i Hi. rewrite elem_of_app, list_elem_of_singleton. split.
      * intros [H | ->]; done.
      * by left.
    + intros _.
      destruct (find (λ i, bool_decide (item_id i = item_id item))
                     (items ++ [item])) as [found|] eqn:Hf'.
      * rewrite filter_app, filter_all by (by apply Forall_forall).
        rewrite filter_cons_False by (by intros H; apply H).
        by rewrite filter_nil, app_nil_r.
      * apply find_none in Hf'. rewrite Forall_forall in Hf'.
        assert (Hi : item ∈ items ++ [item])
          by (apply elem_of_app; right; by left).
        specialize (Hf' item Hi). by rewrite bool_decide_eq_true_2 in Hf'.
    + intros Hnd. rewrite fmap_app. apply NoDup_app. split; [done|]. split.
      * intros id (i & -> & Hi)%list_elem_of_fmap Hin.
        apply list_elem_of_singleton in Hin. by apply (Hns i Hi).
      * apply NoDup_singleton.
Qed.

End Starred.

(** ** Instances on the sample inputs *)

Section MoreInstances.

Import Stream ChatInterface ChatMessage App MCPConfigDialog StarredPage Samples.

Lemma asciiToLowerCase_api_key a b :
  Contains (asciiToLowerCase (a ++ lit "API key" ++ b)) (lit "api key").
Proof.
  unfold asciiToLowerCase. rewrite !fmap_app.
  by exists (asciiToLowerCase a), (asciiToLowerCase b).
Qed.

Lemma sampleApp_consistent : consistent sampleApp.
Proof.
  intros c [= <-]. split; [|reflexivity].
  apply elem_of_cons. right. by left.
Qed.

Lemma deltas_in_arrival_order_witness :
  chunks (streamMessage sampleBase returning emptyRequest
            [delta "Hel"; lastDelta "lo"; delta "ignored"]).1 =
  omap delivered (untilTerminated [delta "Hel"; lastDelta "lo"; delta "ignored"]).
Proof.
  apply (deltas_in_arrival_order returning). intros c. reflexivity.
Defined.

Lemma stream_ends_once_witness :
  (made isComplete
     (streamMessage sampleBase returning emptyRequest
        [delta "Hel"; lastDelta "lo"; delta "ignored"]).1 ≤ 1)%nat.
Proof.
  refine (proj1 (stream_ends_once returning sampleBase emptyRequest
                   [delta "Hel"; lastDelta "lo"; delta "ignored"] _)).
  intros err. reflexivity.
Defined.

Lemma one_request_per_send_witness :
  st_input (handleSend asciiToLowerCase sampleClock (answering sampleResponse)
                       sampleProps sampleState).1 = [].
Proof.
  refine (proj1 (one_request_per_send asciiToLowerCase sampleClock
                   (answering sampleResponse) sampleProps sampleState _)).
  split; reflexivity.
Defined.

Lemma open_settings_iff_auth_witness :
  showsOpenSettings (errorBanner asciiToLowerCase invalidKeyThrown) true = true ↔
  authFlavoured asciiToLowerCase (errorMessage invalidKeyThrown).
Proof.
  apply (open_settings_iff_auth asciiToLowerCase invalidKeyThrown).
  apply asciiToLowerCase_api_key.
Defined.

Lemma no_response_banner_witness :
  st_error (handleSend asciiToLowerCase sampleClock unreachable
                       sampleProps sampleState).1 =
  Some (lit "Error: No response from server. Please check your connection.").
Proof.
  refine (no_response_banner asciiToLowerCase sampleClock unreachable
            sampleProps sampleState _ _ _ _ _ _).
  - reflexivity.
  - split; reflexivity.
  - reflexivity.
  - reflexivity.
  - reflexivity.
Defined.

Lemma view_button_has_artifact_witness :
  ∃ a, artifactOf 1700000000004 (msg_content sampleReply) = Some a ∧
       (art_type a = dashboard ∧
        viewButtonLabel (msg_content sampleReply) = lit "View Dashboard" ∨
        art_type a = report ∧
        viewButtonLabel (msg_content sampleReply) = lit "View Report").
Proof.
  apply (view_button_has_artifact sampleReply 1700000000004). reflexivity.
Defined.

Lemma select_chat_opens_first_match_witness :
  currentChat (handleSelectChat (lit "deleted") sampleApp) = None.
Proof.
  refine (proj2 (proj1 (proj2 (proj2 (proj2 (proj2
            (select_chat_opens_first_match (lit "deleted") sampleApp)))))) _).
  intros c Hc Hid. vm_compute in Hc.
  repeat (apply elem_of_cons in Hc as [-> | Hc]; [discriminate Hid|]).
  by apply elem_of_nil in Hc.
Defined.

Lemma new_chat_is_opened_witness :
  ∃ newChat, chats (handleNewChat sampleClock sampleApp) =
               newChat :: chats sampleApp ∧
             currentChat (handleNewChat sampleClock sampleApp) = Some newChat.
Proof.
  destruct (new_chat_is_opened sampleClock sampleApp) as (n & H1 & H2 & _).
  by exists n.
Defined.

Lemma new_message_updates_listed_chat_witness :
  ∃ updated,
    currentChat (afterEffect sampleApp 1700000000002
                   (handleDeleteChat (lit "3") sampleApp)
                   (OnNewMessage sampleReply)) = Some updated ∧
    chat_messages updated = [sampleReply] ∧
    length (chats (handleDeleteChat (lit "3") sampleApp)) = 2%nat ∧
    length (chats (afterEffect sampleApp 1700000000002
                     (handleDeleteChat (lit "3") sampleApp)
                     (OnNewMessage sampleReply))) = 3%nat.
Proof.
  destruct (proj2 (proj2 (new_message_updates_listed_chat sampleApp
                            1700000000002 sampleReply
                            (handleDeleteChat (lit "3") sampleApp)))
              (sampleChat "chat-7" "New Chat") eq_refl)
    as (u & H1 & _ & H3 & _ & _ & H6 & _).
  exists u. split; [exact H1|]. split; [exact H3|].
  split; [reflexivity|]. rewrite H6. reflexivity.
Defined.

Lemma handlers_keep_current_chat_listed_witness :
  consistent (handleDeleteChat (lit "1") sampleApp) ∧
  consistent (exchange asciiToLowerCase sampleClock sampleClock
                (answering sampleResponse) sampleState sampleApp).2.
Proof.
  pose proof (handlers_keep_current_chat_listed sampleApp sampleApp_consistent)
    as (_ & _ & Hdelete & _ & _ & _ & _ & _ & Hexchange).
  split; [apply Hdelete | apply Hexchange].
Defined.

Lemma exchange_transcript_witness :
  ∃ chat,
    currentChat (exchange asciiToLowerCase sampleClock sampleClock
                   (answering sampleResponse) sampleState sampleApp).2 =
      Some chat ∧
    chat_messages chat = [assistantMessageOf sampleClock sampleResponse] ∧
    chat_title chat = lit "New Chat".
Proof.
  refine (proj1 (proj2 (exchange_transcript asciiToLowerCase sampleClock
                          sampleClock (answering sampleResponse) sampleState
                          sampleApp (sampleChat "chat-7" "New Chat") _ _))
            sampleResponse _).
  - reflexivity.
  - split; reflexivity.
  - reflexivity.
Defined.

Lemma model_options_after_load_witness :
  availableModels (loadAvailableModels (Return [anthropicStatus]) sampleApp).1 ≠ [].
Proof.
  exact (proj1 (proj1 (model_options_after_load (Return [anthropicStatus])
                         sampleApp) [anthropicStatus] eq_refl)).
Defined.

Lemma chosen_model_is_requested_witness :
  selectedProvider (onModelChange (lit "claude-3-opus-20240229") sampleApp) =
  selectedProvider sampleApp.
Proof.
  refine (proj1 (proj2 (proj2 (chosen_model_is_requested
                                 (lit "claude-3-opus-20240229") sampleApp))) _).
  intros o Ho. vm_compute in Ho.
  repeat (apply elem_of_cons in Ho as [-> | Ho]; [discriminate|]).
  by apply elem_of_nil in Ho.
Defined.

Lemma resave_gives_same_config_witness :
  ∃ cfg, handleSave sampleForm = Some cfg ∧
         handleSave (onOpen true (Some cfg) emptyForm) = Some cfg.
Proof.
  destruct (handleSave sampleForm) as [cfg|] eqn:E; [|by vm_compute in E].
  exists cfg. split; [reflexivity|].
  rewrite (resave_gives_same_config sampleForm cfg emptyForm E).
  vm_compute in E. injection E as <-. reflexivity.
Defined.

Lemma blank_env_row_adds_nothing_witness :
  handleSave (addEnvVar unnamedForm) = None.
Proof.
  refine (proj1 (proj2 (blank_env_row_adds_nothing unnamedForm)) _).
  reflexivity.
Defined.

Lemma save_key_sends_typed_key_witness :
  head (Settings.handleSaveKey (Return None) (Return [])
          (JStr (lit "openai")) typedKeySettings).2 =
  Some (Settings.FetchPostKey Settings.apiKeysUrl (JStr (lit "openai"))
          (lit "sk-test")) ∧
  head (Settings.handleSaveKey (Return None) (Return [])
          (JStr (lit "toString")) typedKeySettings).2 =
  Some (Settings.FetchPostInherited Settings.apiKeysUrl (JStr (lit "toString"))
          (lit "toString")).
Proof.
  split.
  - refine (proj1 (proj1 (proj2 (proj2
              (save_key_sends_typed_key (Return None) (Return [])
                 (JStr (lit "openai")) typedKeySettings)))
              (lit "sk-test") _ _)).
    + vm_compute. reflexivity.
    + discriminate.
  - refine (proj1 (proj2 (proj2 (proj2
              (save_key_sends_typed_key (Return None) (Return [])
                 (JStr (lit "toString")) typedKeySettings))) _ _)).
    + vm_compute. reflexivity.
    + vm_compute. repeat constructor.
Defined.

Lemma toggle_star_flips_witness :
  toggleStar starredChat (toggleStar starredChat []) = [].
Proof.
  refine (proj1 (proj2 (proj2 (toggle_star_flips starredChat []))) _).
  intros (i & Hi & _). by apply elem_of_nil in Hi.
Defined.

End MoreInstances.
